(** * Urban mobility data explorer: the manual top-K selector and the
    manual anomaly detector ([src/backend/algorithms]).

    Python values are modelled as the code uses them:
    - Python exceptions are the constructors of [exc], and code that can
      raise returns a [result];
    - Python lists updated in place are stdpp lists, read with [!!] and
      written with [<[i:=x]>], the mutation threaded as explicit state;
    - integer scores and indices are [Z] (or [nat] where the code only
      ever holds non-negative indices);
    - Python floats are Rocq's primitive IEEE-754 binary64 floats, which
      have the same round-to-nearest-even semantics as CPython's [float]. *)

From Stdlib Require Import ZArith Lia Floats Sorting.Sorted.
From stdpp Require Import base list gmap.

(** ** Python exceptions and the error monad *)

Inductive exc := IndexError | KeyError | ZeroDivisionError.

Inductive result (X : Type) := Ok (x : X) | Err (e : exc).
Arguments Ok {X} x.
Arguments Err {X} e.

Definition bind {X Y} (m : result X) (f : X -> result Y) : result Y :=
  match m with Ok x => f x | Err e => Err e end.

Notation "'let!' x := m 'in' f" := (bind m (fun x => f))
  (at level 200, x name, m at level 100, f at level 200).

(** [for x in xs: body] threading the loop state [s]; an exception in the
    body aborts the loop. *)
Fixpoint for_each {S X} (xs : list X) (body : S -> X -> result S) (s : S)
  : result S :=
  match xs with
  | [] => Ok s
  | x :: xs' => let! s' := body s x in for_each xs' body s'
  end.

(** ** Python list primitives *)

(** [l[i]]: negative indices count from the end; out of range raises. *)
Definition py_index {X} (l : list X) (i : Z) : result X :=
  let n := Z.of_nat (length l) in
  let j := if (i <? 0)%Z then (i + n)%Z else i in
  if ((0 <=? j) && (j <? n))%Z then
    match l !! Z.to_nat j with Some x => Ok x | None => Err IndexError end
  else Err IndexError.

(** [l[:k]]: a negative [k] drops [-k] elements from the end. *)
Definition py_slice_upto {X} (l : list X) (k : Z) : list X :=
  let n := Z.of_nat (length l) in
  if (k <? 0)%Z then take (Z.to_nat (k + n)) l else take (Z.to_nat k) l.

(** [range(a, b)]. *)
Definition py_range (a b : Z) : list Z :=
  map (fun j => a + Z.of_nat j)%Z (seq 0 (Z.to_nat (b - a))).


(** ** [top_k_zones.py] *)

(** The instance state of [TopKZones]: only [self.k]; no method writes it. *)
Record TopKZones := { k : Z }.

Section TopK.
Context {A : Type}.

(** An entry [(zone_id, count)]; the score is [entry[1]]. *)
Definition score (e : A * Z) : Z := snd e.

(** [arr[i][1]] at an index the code has checked to be in range. *)
Definition score_at (arr : list (A * Z)) (i : nat) : Z :=
  match arr !! i with Some (_, c) => c | None => 0%Z end.

(** [arr[i], arr[j] = arr[j], arr[i]]: the right-hand side is read first,
    then [arr[i]] and [arr[j]] are assigned in that order. *)
Definition swap (arr : list (A * Z)) (i j : nat) : list (A * Z) :=
  match arr !! i, arr !! j with
  | Some x, Some y => <[j:=x]> (<[i:=y]> arr)
  | _, _ => arr
  end.

(** [_heapify_down]; each recursive call is at a strictly larger index
    below [len(arr)], so [len(arr)] rounds of fuel are enough
    ([heapify_down_fuel_enough] below). *)
Fixpoint heapify_down_fuel (fuel : nat) (arr : list (A * Z)) (idx : nat)
  : list (A * Z) :=
  match fuel with
  | O => arr
  | S fuel' =>
      let n := length arr in
      let smallest := idx in
      let left := (2 * idx + 1)%nat in
      let right := (2 * idx + 2)%nat in
      let smallest :=
        if (left <? n)%nat && (score_at arr left <? score_at arr smallest)%Z
        then left else smallest in
      let smallest :=
        if (right <? n)%nat && (score_at arr right <? score_at arr smallest)%Z
        then right else smallest in
      if negb (smallest =? idx)%nat then
        heapify_down_fuel fuel' (swap arr idx smallest) smallest
      else arr
  end.

Definition heapify_down (arr : list (A * Z)) (idx : nat) : list (A * Z) :=
  heapify_down_fuel (length arr) arr idx.

(** [_build_min_heap]: [for i in range(n // 2 - 1, -1, -1)]. *)
Definition build_min_heap (arr : list (A * Z)) : list (A * Z) :=
  foldl (fun a i => heapify_down a i) arr (reverse (seq 0 (length arr / 2))).

(** [_manual_top_k]. *)
Definition manual_top_k (items : list (A * Z)) (k : Z) : result (list (A * Z)) :=
  if (Z.of_nat (length items) <=? k)%Z then Ok items
  else
    let heap := build_min_heap (py_slice_upto items k) in
    for_each (py_range k (Z.of_nat (length items)))
      (fun heap i =>
         let! it := py_index items i in
         let (zone_id, count) := it in
         let! root := py_index heap 0 in
         if (snd root <? count)%Z
         then Ok (heapify_down (<[0%nat := (zone_id, count)]> heap) 0)
         else Ok heap)
      heap.

(** [_partition]: returns the mutated list and the pivot index. The
    indices it touches lie in [low, high], inside the list. *)
Definition partition (arr : list (A * Z)) (low high : Z) : list (A * Z) * Z :=
  let pivot := score_at arr (Z.to_nat high) in
  let '(arr', i) :=
    foldl (fun (st : list (A * Z) * Z) j =>
             let '(a, i) := st in
             if (pivot <? score_at a (Z.to_nat j))%Z
             then (swap a (Z.to_nat (i + 1)) (Z.to_nat j), (i + 1)%Z)
             else (a, i))
          (arr, (low - 1)%Z) (py_range low high) in
  (swap arr' (Z.to_nat (i + 1)) (Z.to_nat high), (i + 1)%Z).

(** [_quicksort]; the recursive calls work on strictly shorter ranges, so
    [len(arr)] rounds of fuel are enough. *)
Fixpoint quicksort_fuel (fuel : nat) (arr : list (A * Z)) (low high : Z)
  : list (A * Z) :=
  match fuel with
  | O => arr
  | S fuel' =>
      if (low <? high)%Z then
        let '(arr1, pi) := partition arr low high in
        let arr2 := quicksort_fuel fuel' arr1 low (pi - 1) in
        quicksort_fuel fuel' arr2 (pi + 1) high
      else arr
  end.

Definition quicksort (arr : list (A * Z)) (low high : Z) : list (A * Z) :=
  quicksort_fuel (length arr) arr low high.

(** [_manual_sort_descending]. *)
Definition manual_sort_descending (arr : list (A * Z)) : list (A * Z) :=
  if (length arr <=? 1)%nat then arr
  else quicksort arr 0 (Z.of_nat (length arr) - 1).

(** [find_top_k_pickups]: the dict is its list of items in insertion order. *)
Definition find_top_k_pickups (self : TopKZones) (zone_counts : list (A * Z))
  : result (list (A * Z)) :=
  let items := zone_counts in
  let! top_k := manual_top_k items (k self) in
  Ok (manual_sort_descending top_k).


(** *** Specification predicates

    [child p c]: [c] is a child of [p] in the array layout of a heap. *)
Definition child (p c : nat) : Prop := c = (2 * p + 1)%nat \/ c = (2 * p + 2)%nat.

(** Every parent at an index [>= lo] has a score at most its children's. *)
Definition heap_from (lo : nat) (arr : list (A * Z)) : Prop :=
  forall p c x y, (lo <= p)%nat -> child p c ->
    arr !! p = Some x -> arr !! c = Some y -> (score x <= score y)%Z.

(** Every discarded entry scores at most every kept one. *)
Definition dominated (D H : list (A * Z)) : Prop :=
  forall d h, d ∈ D -> h ∈ H -> (score d <= score h)%Z.

Definition seg (arr : list (A * Z)) (lo n : nat) : list (A * Z) := take n (drop lo arr).

(** Adjacent entries are in non-increasing score order. *)
Definition sorted_desc (l : list (A * Z)) : Prop :=
  forall i a b, l !! i = Some a -> l !! S i = Some b -> (score b <= score a)%Z.

Fixpoint desc_chain (l : list (A * Z)) : Prop :=
  match l with
  | a :: ((b :: _) as t) => (score b <= score a)%Z /\ desc_chain t
  | _ => True
  end.

(** Two calls in a row on the same instance and mapping. *)
Definition run_twice (self : TopKZones) (zone_counts : list (A * Z))
  : result (list (A * Z) * list (A * Z)) :=
  let! r1 := find_top_k_pickups self zone_counts in
  let! r2 := find_top_k_pickups self zone_counts in
  Ok (r1, r2).

End TopK.

(** The mapping [{1: 5, 2: 9, 3: 1, 4: 7}]. *)
Definition example_counts : list (Z * Z) := [(1, 5); (2, 9); (3, 1); (4, 7)]%Z.

(** ** [anomaly_detector.py] *)

(** A trip is a dict; a key may be missing ([None]). *)
Record Trip := {
  fare_amount : option float;
  trip_distance : option float;
  trip_duration_min : option float;
  trip_id : option Z }.

(** [d[key]]: a missing key raises [KeyError]. *)
Definition py_getitem (v : option float) : result float :=
  match v with Some x => Ok x | None => Err KeyError end.

(** [d.get(key, default)]. *)
Definition py_get (v : option float) (default : float) : float :=
  match v with Some x => x | None => default end.

(** [x / y] on floats: a zero divisor ([0.0] or [-0.0]) raises. *)
Definition py_div (x y : float) : result float :=
  if (y =? 0)%float then Err ZeroDivisionError else Ok (x / y)%float.

(** [float(n)] for a length [n]: exact below [2^53]. *)
Definition float_of_len (n : nat) : float := of_uint63 (Uint63.of_Z (Z.of_nat n)).

(** A list comprehension [[f(t) for t in l]] whose body may raise. *)
Fixpoint map_result {X Y} (f : X -> result Y) (l : list X) : result (list Y) :=
  match l with
  | [] => Ok []
  | x :: l' => let! y := f x in let! ys := map_result f l' in Ok (y :: ys)
  end.

(** [enumerate(l)]. *)
Definition enumerate {X} (l : list X) : list (nat * X) := zip (seq 0 (length l)) l.

Record AnomalyDetector := { z_threshold : float }.

Definition default_detector : AnomalyDetector := {| z_threshold := 3%float |}.

Inductive anomaly_reason :=
  | fare_outlier | fare_per_mile_anomaly | speed_too_high | speed_too_low
  | distance_time_mismatch.

(** The numeric keys of an anomaly dict. *)
Inductive detail_key :=
  | key_z_score | key_fare | key_fare_per_mile | key_distance | key_speed_mph
  | key_duration | key_expected_duration.

(** An anomaly dict: its [index], [trip_id] and [reason] keys, and its
    numeric keys in the order the code writes them. *)
Record anomaly := {
  index : nat;
  anomaly_trip_id : option Z;
  reason : anomaly_reason;
  details : list (detail_key * float) }.

(** [_manual_sqrt]: [0] for [n < 0] and [n == 0], otherwise ten Newton steps
    from [n / 2.0]; [n / x] raises if [x] has become [0]. *)
Definition manual_sqrt (n : float) : result float :=
  if (n <? 0)%float then Ok 0%float
  else if (n =? 0)%float then Ok 0%float
  else
    let! x := py_div n 2 in
    for_each (seq 0 10)
      (fun x _ => let! q := py_div n x in py_div (x + q)%float 2)
      x.

(** [_calculate_mean]. *)
Definition calculate_mean (values : list float) : result float :=
  match values with
  | [] => Ok 0%float
  | _ =>
    let total := foldl (fun total v => (total + v)%float) 0%float values in
    py_div total (float_of_len (length values))
  end.

(** [_calculate_std(values, mean=None)]. *)
Definition calculate_std (values : list float) (mean : option float) : result float :=
  match values with
  | [] => Ok 0%float
  | _ =>
    let! mean := match mean with Some m => Ok m | None => calculate_mean values end in
    let squared_diffs :=
      foldl (fun s v => let diff := (v - mean)%float in (s + diff * diff)%float)
        0%float values in
    let! variance := py_div squared_diffs (float_of_len (length values)) in
    manual_sqrt variance
  end.

Section Detector.

(** Python's [round(x, ndigits)] on floats. *)
Variable py_round : float -> Z -> float.

Definition detect_fare_anomalies (self : AnomalyDetector) (trips : list Trip)
  : result (list anomaly) :=
  match trips with
  | [] => Ok []
  | _ =>
    let! fares := map_result (fun t => py_getitem (fare_amount t)) trips in
    let! distances := map_result (fun t => py_getitem (trip_distance t)) trips in
    let! fare_mean := calculate_mean fares in
    let! fare_std := calculate_std fares (Some fare_mean) in
    for_each (enumerate trips)
      (fun anomalies '(i, trip) =>
         let! fare := py_getitem (fare_amount trip) in
         let! distance := py_getitem (trip_distance trip) in
         let! anomalies :=
           if (0 <? fare_std)%float then
             let! z_score := py_div (fare - fare_mean)%float fare_std in
             if (z_threshold self <? abs z_score)%float then
               Ok (anomalies ++
                   [{| index := i; anomaly_trip_id := trip_id trip;
                       reason := fare_outlier;
                       details := [(key_z_score, py_round z_score 2); (key_fare, fare)] |}])
             else Ok anomalies
           else Ok anomalies in
         if (0 <? distance)%float then
           let! fare_per_mile := py_div fare distance in
           if ((fare_per_mile <? 2) || (50 <? fare_per_mile))%float then
             Ok (anomalies ++
                 [{| index := i; anomaly_trip_id := trip_id trip;
                     reason := fare_per_mile_anomaly;
                     details := [(key_fare_per_mile, py_round fare_per_mile 2);
                                 (key_fare, fare); (key_distance, distance)] |}])
           else Ok anomalies
         else Ok anomalies)
      []
  end.

Definition detect_speed_anomalies (self : AnomalyDetector) (trips : list Trip)
  : result (list anomaly) :=
  for_each (enumerate trips)
    (fun anomalies '(i, trip) =>
       let distance := py_get (trip_distance trip) 0 in
       let duration := py_get (trip_duration_min trip) 0 in
       if ((duration <=? 0) || (distance <=? 0))%float then Ok anomalies
       else
         let! q := py_div distance duration in
         let speed_mph := (q * 60)%float in
         if (80 <? speed_mph)%float then
           Ok (anomalies ++
               [{| index := i; anomaly_trip_id := trip_id trip;
                   reason := speed_too_high;
                   details := [(key_speed_mph, py_round speed_mph 1);
                               (key_distance, distance); (key_duration, duration)] |}])
         else if ((speed_mph <? 1) && (0.5 <? distance))%float then
           Ok (anomalies ++
               [{| index := i; anomaly_trip_id := trip_id trip;
                   reason := speed_too_low;
                   details := [(key_speed_mph, py_round speed_mph 1);
                               (key_distance, distance); (key_duration, duration)] |}])
         else Ok anomalies)
    [].

Definition detect_distance_time_mismatch (self : AnomalyDetector) (trips : list Trip)
  : result (list anomaly) :=
  for_each (enumerate trips)
    (fun anomalies '(i, trip) =>
       let distance := py_get (trip_distance trip) 0 in
       let duration := py_get (trip_duration_min trip) 0 in
       if ((distance <=? 0) || (duration <=? 0))%float then Ok anomalies
       else
         let! q := py_div distance 15 in
         let expected_duration := (q * 60)%float in
         let min_expected := (expected_duration * 0.5)%float in
         let max_expected := (expected_duration * 1.5)%float in
         if ((duration <? min_expected) || (max_expected <? duration))%float then
           Ok (anomalies ++
               [{| index := i; anomaly_trip_id := trip_id trip;
                   reason := distance_time_mismatch;
                   details := [(key_distance, distance); (key_duration, duration);
                               (key_expected_duration, py_round expected_duration 1)] |}])
         else Ok anomalies)
    [].

Record AllAnomalies := {
  fare_anomalies : list anomaly;
  speed_anomalies : list anomaly;
  mismatch_anomalies : list anomaly;
  total_anomalous_trips : nat;
  anomaly_rate : float }.

Definition detect_all_anomalies (self : AnomalyDetector) (trips : list Trip)
  : result AllAnomalies :=
  let! fa := detect_fare_anomalies self trips in
  let! sa := detect_speed_anomalies self trips in
  let! ma := detect_distance_time_mismatch self trips in
  let all_indices : gset nat :=
    foldl (fun s anomaly_list => foldl (fun s a => {[ index a ]} ∪ s) s anomaly_list)
      ∅ [fa; sa; ma] in
  let! rate :=
    match trips with
    | [] => Ok 0%float
    | _ => py_div (float_of_len (size all_indices)) (float_of_len (length trips))
    end in
  Ok {| fare_anomalies := fa; speed_anomalies := sa; mismatch_anomalies := ma;
        total_anomalous_trips := size all_indices; anomaly_rate := rate |}.

Record AnomalySummary := {
  total_trips : nat;
  total_anomalies : nat;
  anomaly_rate_percent : float;
  summary_fare_anomalies : nat;
  summary_speed_anomalies : nat;
  summary_mismatch_anomalies : nat }.

Definition get_anomaly_summary (self : AnomalyDetector) (trips : list Trip)
  : result AnomalySummary :=
  let! results := detect_all_anomalies self trips in
  Ok {| total_trips := length trips;
        total_anomalies := total_anomalous_trips results;
        anomaly_rate_percent := py_round (anomaly_rate results * 100)%float 2;
        summary_fare_anomalies := length (fare_anomalies results);
        summary_speed_anomalies := length (speed_anomalies results);
        summary_mismatch_anomalies := length (mismatch_anomalies results) |}.

(** The module-level helper [find_anomalies(trips, threshold=3.0)]: a fresh
    detector with the given z-score threshold runs [detect_all_anomalies]. *)
Definition find_anomalies (trips : list Trip) (threshold : float) : result AllAnomalies :=
  let detector := {| z_threshold := threshold |} in
  detect_all_anomalies detector trips.

End Detector.

(** Two runs related by [R] when both return, or raising the same exception. *)
Definition res_rel {X Y} (R : X -> Y -> Prop) (r1 : result X) (r2 : result Y) : Prop :=
  match r1, r2 with
  | Ok a, Ok b => R a b
  | Err e1, Err e2 => e1 = e2
  | _, _ => False
  end.

(** The square root as the specification describes it: ten Newton steps
    [x := (x + n / x) / 2] from [x0 = n / 2], in IEEE arithmetic. *)
Definition newton_sqrt_spec (n : float) : float :=
  Nat.iter 10 (fun x => (x + n / x) / 2)%float (n / 2)%float.

(** A trip dict with the given optional fields and no [trip_id]. *)
Definition mk_trip (fare distance duration : option float) : Trip :=
  {| fare_amount := fare; trip_distance := distance;
     trip_duration_min := duration; trip_id := None |}.

(** Python's [0.1] (the binary64 value nearest to 1/10). *)
Definition point_one : float := 0x1.999999999999ap-4%float.

(** Python's [1e-9]. *)
Definition one_e_minus_9 : float := 0x1.12e0be826d695p-30%float.

(** A concrete stand-in for Python's [round] in evaluated examples. *)
Definition no_round (x : float) (ndigits : Z) : float := x.

(** Three complete trips: a fast expensive short trip, a [$100] one-mile
    trip and an ordinary one. *)
Definition example_trips : list Trip :=
  [mk_trip (Some 10%float) (Some 1%float) (Some 1%float);
   mk_trip (Some 100%float) (Some 1%float) (Some 5%float);
   mk_trip (Some 12%float) (Some 3%float) (Some 12%float)].

(** Two trips with the same fare, so the fare deviation is [0]. *)
Definition equal_fare_trips : list Trip :=
  [mk_trip (Some 1%float) (Some 1%float) (Some 5%float);
   mk_trip (Some 1%float) (Some 4%float) (Some 8%float)].

(** A trip dict without [fare_amount]. *)
Definition trip_without_fare : Trip := mk_trip None (Some 1%float) (Some 5%float).

(** Case analysis on the [if] of a negated test. *)
Ltac destruct_negb_if :=
  match goal with |- context [if negb ?b then _ else _] => destruct (negb b) end.

(** The goals about a one-record block appended by a detection pass. *)
Ltac singleton_block :=
  repeat constructor;
  match goal with
  | Ha : _ ∈ [_] |- _ => apply list_elem_of_singleton in Ha; subst
  | _ => idtac
  end.

(** [Forall] over the records of one trip in the fare pass. *)
Ltac fare_block_records :=
  repeat (constructor; [simpl; split; [done|split; [done|first [by left|by right]]]|]);
  constructor.

(** ** Sample runs *)

Example scenario_A :
  find_top_k_pickups {| k := 2 |} [(1%Z, 5%Z); (2%Z, 9%Z); (3%Z, 1%Z); (4%Z, 7%Z)]
  = Ok [(2%Z, 9%Z); (4%Z, 7%Z)].
Proof. reflexivity. Qed.

Example scenario_B : find_top_k_pickups (A:=Z) {| k := 5 |} [] = Ok [].
Proof. reflexivity. Qed.

Example k0 : find_top_k_pickups {| k := 0 |} [(1%Z, 5%Z)] = Err IndexError.
Proof. reflexivity. Qed.

(** ** Properties of the primitives *)

Lemma py_range_nil (a b : Z) : (b <= a)%Z -> py_range a b = [].
Proof. intros H. unfold py_range. replace (Z.to_nat (b - a)) with 0%nat by lia. done. Qed.

Lemma py_range_cons (a b : Z) :
  (a < b)%Z -> py_range a b = a :: py_range (a + 1) b.
Proof.
  intros H. unfold py_range.
  replace (Z.to_nat (b - a)) with (S (Z.to_nat (b - (a + 1)))) by lia.
  simpl. f_equal; [lia|]. rewrite <- seq_shift, map_map.
  apply map_ext. intros j. lia.
Qed.

(** The loop rule for [for i in range(a, b)]. *)
Lemma for_each_range {S : Type} (Inv : Z -> S -> Prop)
    (body : S -> Z -> result S) (a b : Z) (s : S) :
  (a <= b)%Z -> Inv a s ->
  (forall i s, (a <= i < b)%Z -> Inv i s -> exists s', body s i = Ok s' /\ Inv (i + 1)%Z s') ->
  exists s', for_each (py_range a b) body s = Ok s' /\ Inv b s'.
Proof.
  remember (Z.to_nat (b - a)) as m eqn:Hm.
  revert a s Hm. induction m as [|m IH]; intros a s Hm Hab Hinv Hbody.
  - rewrite py_range_nil by lia. exists s. split; [done|].
    replace b with a by lia. done.
  - rewrite py_range_cons by lia. simpl.
    destruct (Hbody a s) as (s' & Hs' & Hinv'); [lia|done|].
    rewrite Hs'. simpl. apply (IH (a + 1)%Z); [lia|lia|done|].
    intros i s0 Hi. apply Hbody. lia.
Qed.

Section TopKProofs.
Context {A : Type}.
Implicit Types (arr l L R : list (A * Z)) (piv : A * Z).

Lemma score_at_lookup arr i x : arr !! i = Some x -> score_at arr i = score x.
Proof. intros H. unfold score_at. rewrite H. by destruct x. Qed.

Lemma length_swap arr i j : length (swap arr i j) = length arr.
Proof.
  unfold swap. destruct (arr !! i), (arr !! j); try done.
  by rewrite !length_insert.
Qed.

Lemma swap_perm arr i j : swap arr i j ≡ₚ arr.
Proof.
  unfold swap. destruct (arr !! i) eqn:Hi, (arr !! j) eqn:Hj; try done.
  by apply Permutation_insert_swap.
Qed.

Lemma lookup_swap arr i j x y t :
  arr !! i = Some x -> arr !! j = Some y ->
  swap arr i j !! t =
    if decide (t = j) then Some x else if decide (t = i) then Some y else arr !! t.
Proof.
  intros Hi Hj. unfold swap. rewrite Hi, Hj.
  pose proof (lookup_lt_Some _ _ _ Hi). pose proof (lookup_lt_Some _ _ _ Hj).
  destruct (decide (t = j)) as [->|Htj].
  - rewrite list_lookup_insert_eq; [done|]. by rewrite length_insert.
  - rewrite list_lookup_insert_ne by done.
    destruct (decide (t = i)) as [->|Hti].
    + by rewrite list_lookup_insert_eq.
    + by rewrite list_lookup_insert_ne.
Qed.


(** *** The min-heap *)


Lemma child_parent_unique p p' c : child p c -> child p' c -> p = p'.
Proof. unfold child. lia. Qed.

Lemma length_heapify_down_fuel f arr idx :
  length (heapify_down_fuel f arr idx) = length arr.
Proof.
  revert arr idx. induction f as [|f IH]; intros arr idx; simpl; [done|].
  destruct_negb_if; [|done]. rewrite IH. apply length_swap.
Qed.

Lemma heapify_down_fuel_perm f arr idx : heapify_down_fuel f arr idx ≡ₚ arr.
Proof.
  revert arr idx. induction f as [|f IH]; intros arr idx; simpl; [done|].
  destruct_negb_if; [|done]. rewrite IH. apply swap_perm.
Qed.

(** The fuel of [heapify_down] is enough: more fuel gives the same list, so
    [heapify_down] is the unbounded recursion of the source. *)
Lemma heapify_down_fuel_enough f f' arr idx :
  (length arr <= idx + f)%nat -> (f <= f')%nat ->
  heapify_down_fuel f' arr idx = heapify_down_fuel f arr idx.
Proof.
  revert f' arr idx. induction f as [|f IH]; intros f' arr idx Hlen Hf.
  - destruct f' as [|f']; cbn [heapify_down_fuel]; [done|].
    rewrite (proj2 (Nat.ltb_ge (2 * idx + 1) (length arr))) by lia.
    rewrite (proj2 (Nat.ltb_ge (2 * idx + 2) (length arr))) by lia.
    simpl. by rewrite Nat.eqb_refl.
  - destruct f' as [|f']; [lia|]. cbn [heapify_down_fuel].
    set (s1 := if (2 * idx + 1 <? length arr)%nat &&
                  (score_at arr (2 * idx + 1) <? score_at arr idx)%Z
               then (2 * idx + 1)%nat else idx).
    set (s2 := if (2 * idx + 2 <? length arr)%nat &&
                  (score_at arr (2 * idx + 2) <? score_at arr s1)%Z
               then (2 * idx + 2)%nat else s1).
    destruct (negb (s2 =? idx)%nat) eqn:Hne; [|done].
    apply IH; [|lia]. rewrite length_swap.
    assert (idx < s2)%nat; [|lia].
    apply negb_true_iff, Nat.eqb_neq in Hne.
    unfold s2, s1 in *. repeat case_match; simpl in *; lia.
Qed.


(** The index [_heapify_down] swaps with: a child of [idx] in range, or
    [idx] itself, whose score is the least among [idx] and its children. *)
Lemma smallest_spec arr idx :
  let n := length arr in
  let s1 := if (2 * idx + 1 <? n)%nat && (score_at arr (2 * idx + 1) <? score_at arr idx)%Z
            then (2 * idx + 1)%nat else idx in
  let s2 := if (2 * idx + 2 <? n)%nat && (score_at arr (2 * idx + 2) <? score_at arr s1)%Z
            then (2 * idx + 2)%nat else s1 in
  (s2 = idx \/ (child idx s2 /\ (s2 < n)%nat)) /\
  (score_at arr s2 <= score_at arr idx)%Z /\
  (forall c, child idx c -> (c < n)%nat -> (score_at arr s2 <= score_at arr c)%Z).
Proof.
  intros n s1 s2. unfold s2, s1, child.
  destruct (Nat.ltb_spec (2 * idx + 1) n), (Nat.ltb_spec (2 * idx + 2) n),
    (Z.ltb_spec (score_at arr (2 * idx + 1)) (score_at arr idx)); cbn [andb];
  try destruct (Z.ltb_spec (score_at arr (2 * idx + 2)) (score_at arr (2 * idx + 1)));
  try destruct (Z.ltb_spec (score_at arr (2 * idx + 2)) (score_at arr idx));
  cbn [andb]; (split; [lia|split; [lia|intros c Hc Hcn; destruct Hc; subst; lia]]).
Qed.

(** Sift-down restores the heap order from [lo] on, when the only parent
    out of order is [j] and [j]'s parent is below [j]'s children. *)
Lemma heapify_down_fuel_heap f arr lo j :
  (length arr <= j + f)%nat -> (lo <= j)%nat ->
  (forall p c x y, (lo <= p)%nat -> p <> j -> child p c ->
     arr !! p = Some x -> arr !! c = Some y -> (score x <= score y)%Z) ->
  (forall g c x y, (lo <= g)%nat -> child g j -> child j c ->
     arr !! g = Some x -> arr !! c = Some y -> (score x <= score y)%Z) ->
  heap_from lo (heapify_down_fuel f arr j).
Proof.
  revert arr j. induction f as [|f IH]; intros arr j Hlen Hlo H1 H2.
  - cbn [heapify_down_fuel]. intros p c x y Hp Hc Hx Hy.
    destruct (decide (p = j)) as [->|Hpj]; [|eauto].
    apply lookup_lt_Some in Hy. unfold child in Hc. lia.
  - cbn [heapify_down_fuel].
    destruct (smallest_spec arr j) as (Hs & Hsj & Hsc).
    set (s1 := if (2 * j + 1 <? length arr)%nat &&
                  (score_at arr (2 * j + 1) <? score_at arr j)%Z
               then (2 * j + 1)%nat else j) in *.
    set (s2 := if (2 * j + 2 <? length arr)%nat &&
                  (score_at arr (2 * j + 2) <? score_at arr s1)%Z
               then (2 * j + 2)%nat else s1) in *.
    destruct (negb (s2 =? j)%nat) eqn:Hne.
    + apply negb_true_iff, Nat.eqb_neq in Hne.
      destruct Hs as [Hs|[Hchild Hn]]; [done|].
      assert (j < s2)%nat by (unfold child in Hchild; lia).
      destruct (lookup_lt_is_Some_2 arr j) as [xj Hxj]; [lia|].
      destruct (lookup_lt_is_Some_2 arr s2) as [xs Hxs]; [lia|].
      rewrite (score_at_lookup _ _ _ Hxj), (score_at_lookup _ _ _ Hxs) in Hsj.
      apply IH.
      * rewrite length_swap. lia.
      * lia.
      * intros p c x y Hp Hps Hc Hx Hy.
        rewrite (lookup_swap _ _ _ xj xs) in Hx, Hy by done.
        destruct (decide (p = s2)) as [|_]; [done|].
        destruct (decide (p = j)) as [->|Hpj].
        -- simplify_eq.
           destruct (decide (c = s2)) as [->|Hcs]; [by simplify_eq|].
           destruct (decide (c = j)) as [->|Hcj]; [unfold child in Hc; lia|].
           pose proof (Hsc c Hc (lookup_lt_Some _ _ _ Hy)) as Hle.
           by rewrite (score_at_lookup _ _ _ Hxs), (score_at_lookup _ _ _ Hy) in Hle.
        -- destruct (decide (c = s2)) as [->|Hcs].
           { by pose proof (child_parent_unique _ _ _ Hc Hchild). }
           destruct (decide (c = j)) as [->|Hcj].
           ++ simplify_eq. eauto.
           ++ eauto.
      * intros g c x y Hg Hgc Hc Hx Hy.
        pose proof (child_parent_unique _ _ _ Hgc Hchild) as ->.
        rewrite (lookup_swap _ _ _ xj xs) in Hx, Hy by done.
        destruct (decide (j = s2)); [lia|]. rewrite decide_True in Hx by done.
        simplify_eq.
        assert (c <> s2 /\ c <> j) as [Hc1 Hc2] by (unfold child in Hc; lia).
        rewrite decide_False, decide_False in Hy by done.
        apply (H1 s2 c); [lia|lia|done|done|done].
    + apply negb_false_iff, Nat.eqb_eq in Hne.
      intros p c x y Hp Hc Hx Hy.
      destruct (decide (p = j)) as [->|Hpj]; [|eauto].
      pose proof (Hsc c Hc (lookup_lt_Some _ _ _ Hy)) as Hle.
      rewrite Hne, (score_at_lookup _ _ _ Hx), (score_at_lookup _ _ _ Hy) in Hle.
      done.
Qed.


Lemma length_heapify_down arr idx : length (heapify_down arr idx) = length arr.
Proof. apply length_heapify_down_fuel. Qed.

Lemma heapify_down_perm arr idx : heapify_down arr idx ≡ₚ arr.
Proof. apply heapify_down_fuel_perm. Qed.

Lemma heap_from_half arr : heap_from (length arr / 2) arr.
Proof.
  intros p c x y Hp Hc Hx Hy. apply lookup_lt_Some in Hy.
  pose proof (Nat.div_mod (length arr) 2 ltac:(lia)).
  pose proof (Nat.mod_upper_bound (length arr) 2 ltac:(lia)).
  unfold child in Hc. lia.
Qed.

Lemma heapify_down_step arr i :
  heap_from (S i) arr -> heap_from i (heapify_down arr i).
Proof.
  intros H. apply heapify_down_fuel_heap; [lia|lia| |].
  - intros p c x y Hp Hpi. apply H. lia.
  - intros g c x y Hg Hgi. unfold child in Hgi. lia.
Qed.

Lemma build_min_heap_fold m arr :
  heap_from m arr ->
  heap_from 0 (foldl (fun a i => heapify_down a i) arr (reverse (seq 0 m))).
Proof.
  revert arr. induction m as [|m IH]; intros arr H; [done|].
  rewrite seq_S, reverse_snoc. simpl. apply IH. by apply heapify_down_step.
Qed.

Lemma build_min_heap_heap arr : heap_from 0 (build_min_heap arr).
Proof. apply build_min_heap_fold, heap_from_half. Qed.

Lemma length_build_min_heap arr : length (build_min_heap arr) = length arr.
Proof.
  unfold build_min_heap. generalize (reverse (seq 0 (length arr / 2))).
  intros l. revert arr. induction l as [|i l IH]; intros arr; simpl; [done|].
  by rewrite IH, length_heapify_down.
Qed.

Lemma build_min_heap_perm arr : build_min_heap arr ≡ₚ arr.
Proof.
  unfold build_min_heap. generalize (reverse (seq 0 (length arr / 2))).
  intros l. revert arr. induction l as [|i l IH]; intros arr; simpl; [done|].
  by rewrite IH, heapify_down_perm.
Qed.

(** In a min-heap the root has the least score. *)
Lemma heap_root_min arr r t x :
  heap_from 0 arr -> arr !! 0%nat = Some r -> arr !! t = Some x -> (score r <= score x)%Z.
Proof.
  intros H Hr. revert x. induction t as [t IHt] using lt_wf_ind. intros x Hx.
  destruct t as [|t]; [simplify_eq; lia|].
  pose proof (Nat.div_mod t 2 ltac:(lia)).
  pose proof (Nat.mod_upper_bound t 2 ltac:(lia)).
  destruct (lookup_lt_is_Some_2 arr (t / 2)) as [z Hz].
  { apply lookup_lt_Some in Hx. lia. }
  transitivity (score z).
  - apply (IHt (t / 2)); [lia|done].
  - apply (H (t / 2) (S t)); [lia| |done|done]. unfold child. lia.
Qed.

(** Replacing the root and sifting it down gives a min-heap again. *)
Lemma replace_root_heap arr e :
  heap_from 0 arr -> heap_from 0 (heapify_down (<[0%nat := e]> arr) 0).
Proof.
  intros H. apply heapify_down_fuel_heap; [rewrite length_insert; lia|lia| |].
  - intros p c x y _ Hp Hc Hx Hy.
    assert (c <> 0%nat) by (unfold child in Hc; lia).
    rewrite list_lookup_insert_ne in Hx, Hy by done. eauto with lia.
  - intros g c x y _ Hg. unfold child in Hg. lia.
Qed.


(** *** The streaming top-k selection *)

Lemma py_index_nonneg {X} (l : list X) (i : Z) x :
  (0 <= i)%Z -> l !! Z.to_nat i = Some x -> py_index l i = Ok x.
Proof.
  intros Hi Hx. pose proof (lookup_lt_Some _ _ _ Hx) as Hlt. unfold py_index.
  rewrite (proj2 (Z.ltb_ge i 0)) by lia.
  rewrite (proj2 (Z.leb_le 0 i)) by lia.
  rewrite (proj2 (Z.ltb_lt i (Z.of_nat (length l)))) by lia.
  simpl. by rewrite Hx.
Qed.

Lemma manual_top_k_spec (items : list (A * Z)) (k : Z) :
  (1 <= k)%Z ->
  exists H D, manual_top_k items k = Ok H /\
    length H = Nat.min (Z.to_nat k) (length items) /\
    H ++ D ≡ₚ items /\ dominated D H.
Proof.
  intros Hk. unfold manual_top_k.
  destruct (Z.leb_spec (Z.of_nat (length items)) k) as [Hle|Hlt].
  { exists items, []. split; [done|]. split; [rewrite Nat.min_r; lia|].
    split; [by rewrite app_nil_r|]. intros d h Hd. by apply not_elem_of_nil in Hd. }
  set (Inv := fun (i : Z) (heap : list (A * Z)) =>
    length heap = Z.to_nat k /\ heap_from 0 heap /\
    exists D, heap ++ D ≡ₚ take (Z.to_nat i) items /\ dominated D heap).
  match goal with |- context [for_each (py_range ?a ?b) ?body ?s] =>
    assert (Hinit : Inv a s); [|assert (Hstep : forall i heap, (a <= i < b)%Z ->
      Inv i heap -> exists heap', body heap i = Ok heap' /\ Inv (i + 1)%Z heap');
    [|destruct (for_each_range Inv body a b s ltac:(lia) Hinit Hstep)
        as (H & Hrun & HlenH & _ & D & HpermH & HdomH)]] end.
  { unfold Inv, py_slice_upto. rewrite (proj2 (Z.ltb_ge k 0)) by lia.
    split; [rewrite length_build_min_heap, length_take; lia|].
    split; [apply build_min_heap_heap|].
    exists []. rewrite app_nil_r. split; [apply build_min_heap_perm|].
    intros d h Hd. by apply not_elem_of_nil in Hd. }
  2: { exists H, D. split; [exact Hrun|]. split; [rewrite Nat.min_l; lia|]. split; [|done].
       rewrite HpermH. rewrite take_ge; [done|lia]. }
  intros i heap Hi HInv.
  destruct HInv as (Hlen & Hheap & D & Hperm & Hdom).
  destruct (lookup_lt_is_Some_2 items (Z.to_nat i)) as [e He]; [lia|].
  rewrite (py_index_nonneg items i e ltac:(lia) He). simpl. destruct e as [zone_id count].
  destruct heap as [|root T]; [simpl in Hlen; lia|].
  rewrite (py_index_nonneg (root :: T) 0 root ltac:(lia) eq_refl). cbn [bind].
  assert (Hroot : forall h, h ∈ root :: T -> (score root <= score h)%Z).
  { intros h Hh. apply list_elem_of_lookup in Hh as [t Ht].
    by apply (heap_root_min (root :: T) root t h). }
  assert (Htake : take (Z.to_nat (i + 1)) items
                  = take (Z.to_nat i) items ++ [(zone_id, count)]).
  { replace (Z.to_nat (i + 1)) with (S (Z.to_nat i)) by lia. by apply take_S_r. }
  destruct (Z.ltb_spec (snd root) count) as [Hgt|Hnot].
  - eexists. split; [done|]. unfold Inv.
    split; [by rewrite length_heapify_down, length_insert|].
    split; [by apply replace_root_heap|].
    exists (root :: D). split.
    + rewrite Htake, heapify_down_perm, <- Hperm, (Permutation_app_comm _ [_]).
      simpl. constructor. by rewrite <- Permutation_middle.
    + intros d h Hd Hh. rewrite heapify_down_perm in Hh. simpl in Hh.
      apply elem_of_cons in Hh.
      apply elem_of_cons in Hd as [->|Hd].
      * destruct Hh as [->|Hh]; [unfold score; simpl; lia|].
        apply Hroot. by apply elem_of_cons; right.
      * destruct Hh as [->|Hh].
        -- pose proof (Hdom d root Hd ltac:(by apply elem_of_cons; left)).
           unfold score in *; simpl; lia.
        -- apply Hdom; [done|]. by apply elem_of_cons; right.
  - eexists. split; [done|]. unfold Inv.
    split; [done|]. split; [done|].
    exists (D ++ [(zone_id, count)]). rewrite Htake. split.
    + by rewrite app_assoc, Hperm.
    + intros d h Hd Hh. apply elem_of_app in Hd as [Hd|Hd]; [by apply Hdom|].
      apply list_elem_of_singleton in Hd as ->.
      pose proof (Hroot h Hh). unfold score in *; simpl; lia.
Qed.


(** *** The quicksort *)

Lemma swap_middle (P Q R : list (A * Z)) x y :
  swap (P ++ y :: Q ++ x :: R) (length P) (length P + S (length Q))
  = P ++ x :: Q ++ y :: R.
Proof.
  unfold swap. rewrite list_lookup_middle by done.
  rewrite lookup_app_r by lia.
  replace (length P + S (length Q) - length P)%nat with (S (length Q)) by lia.
  simpl. rewrite list_lookup_middle by done.
  rewrite (insert_app_r_alt P _ (length P)), Nat.sub_diag by lia. simpl.
  rewrite insert_app_r. simpl.
  rewrite (insert_app_r_alt Q _ (length Q)), Nat.sub_diag by lia. done.
Qed.

Lemma swap_same arr i : swap arr i i = arr.
Proof.
  unfold swap. destruct (arr !! i) eqn:Hi; [|done].
  by rewrite list_insert_insert_eq, list_insert_id.
Qed.

(** The loop rule for [foldl] over [range(a, b)]. *)
Lemma foldl_range {St : Type} (Inv : Z -> St -> Prop) (f : St -> Z -> St) (a b : Z) (s : St) :
  (a <= b)%Z -> Inv a s ->
  (forall j s, (a <= j < b)%Z -> Inv j s -> Inv (j + 1)%Z (f s j)) ->
  Inv b (foldl f s (py_range a b)).
Proof.
  remember (Z.to_nat (b - a)) as m eqn:Hm.
  revert a s Hm. induction m as [|m IH]; intros a s Hm Hab Hinv Hstep.
  - rewrite py_range_nil by lia. simpl. by replace b with a by lia.
  - rewrite py_range_cons by lia. simpl. apply IH; [lia|lia|auto with lia|].
    intros j s0 Hj. apply Hstep. lia.
Qed.

Lemma perm_exchange_ends (x y : A * Z) M : x :: M ++ [y] ≡ₚ y :: M ++ [x].
Proof.
  rewrite (Permutation_app_comm M [y]), (Permutation_app_comm M [x]). simpl.
  apply Permutation_swap.
Qed.

(** [_partition (arr, low, high)] leaves the larger scores before the
    pivot and the others after it, and touches only [arr[low..high]]. *)
Lemma partition_spec arr (low high : Z) :
  (0 <= low < high)%Z -> (Z.to_nat high < length arr)%nat ->
  exists L piv R,
    arr !! Z.to_nat high = Some piv /\
    partition arr low high =
      (take (Z.to_nat low) arr ++ L ++ piv :: R ++ drop (S (Z.to_nat high)) arr,
       Z.of_nat (Z.to_nat low + length L)) /\
    L ++ piv :: R ≡ₚ seg arr (Z.to_nat low) (S (Z.to_nat high) - Z.to_nat low) /\
    Forall (fun e => score piv < score e)%Z L /\
    Forall (fun e => score e <= score piv)%Z R.
Proof.
  intros Hlh Hn. unfold partition. set (lo := Z.to_nat low). set (hi := Z.to_nat high).
  destruct (lookup_lt_is_Some_2 arr hi) as [piv Hpiv]; [lia|].
  rewrite (score_at_lookup _ _ _ Hpiv).
  set (Inv := fun (J : Z) (st : list (A * Z) * Z) =>
    exists L M, st.1 = take lo arr ++ L ++ M ++ drop (Z.to_nat J) arr /\
      (low - 1 <= st.2)%Z /\ Z.to_nat (st.2 + 1) = (lo + length L)%nat /\
      (length L + length M)%nat = (Z.to_nat J - lo)%nat /\
      Forall (fun e => score piv < score e)%Z L /\
      Forall (fun e => score e <= score piv)%Z M /\
      L ++ M ≡ₚ seg arr lo (Z.to_nat J - lo)).
  match goal with |- context [foldl ?f ?s (py_range low high)] =>
    assert (Hloop : Inv high (foldl f s (py_range low high))) end.
  { apply foldl_range; [lia| |].
    - exists [], []. simpl. fold lo. split; [by rewrite take_drop|].
      split; [lia|]. split; [lia|]. split; [lia|].
      split; [done|]. split; [done|].
      unfold seg. by replace (lo - lo)%nat with 0%nat by lia.
    - intros j [a i] Hj (L & M & Ha & Hi1 & Hi2 & Hlen & HL & HM & Hperm).
      simpl in Ha, Hi1, Hi2 |- *.
      destruct (lookup_lt_is_Some_2 arr (Z.to_nat j)) as [x Hx]; [lia|].
      rewrite (drop_S _ _ _ Hx) in Ha.
      assert (Hseg : seg arr lo (Z.to_nat (j + 1) - lo)
                     = seg arr lo (Z.to_nat j - lo) ++ [x]).
      { unfold seg. replace (Z.to_nat (j + 1) - lo)%nat with (S (Z.to_nat j - lo)) by lia.
        apply take_S_r. rewrite lookup_drop. by replace (lo + (Z.to_nat j - lo))%nat
          with (Z.to_nat j) by lia. }
      assert (Hax : score_at a (Z.to_nat j) = score x).
      { apply score_at_lookup. rewrite Ha, app_assoc, app_assoc, <- (app_assoc _ L M).
        apply list_lookup_middle. rewrite !length_app, length_take. lia. }
      rewrite Hax. destruct (Z.ltb_spec (score piv) (score x)) as [Hgt|Hle].
      + destruct M as [|m0 M1].
        * exists (L ++ [x]), []. simpl.
          replace (Z.to_nat (i + 1)) with (Z.to_nat j) by (simpl in Hlen; lia).
          rewrite swap_same, Ha. simpl.
          split; [by rewrite <- !app_assoc; replace (Z.to_nat (j + 1)) with (S (Z.to_nat j)) by lia|].
          rewrite length_app. simpl.
          split; [lia|]. split; [lia|]. split; [simpl in Hlen; lia|].
          split; [by apply Forall_app; split; [|constructor]|]. split; [done|].
          rewrite app_nil_r, Hseg, <- Hperm, app_nil_r. done.
        * exists (L ++ [x]), (M1 ++ [m0]). simpl.
          rewrite Ha, app_assoc.
          replace (Z.to_nat (i + 1)) with (length (take lo arr ++ L))
            by (rewrite length_app, length_take; lia).
          replace (Z.to_nat j) with (length (take lo arr ++ L) + S (length M1))%nat
            by (rewrite length_app, length_take; simpl in Hlen; lia).
          rewrite <- app_comm_cons, swap_middle.
          split.
          { rewrite <- ?app_assoc. simpl. rewrite <- ?app_assoc. simpl.
            replace (Z.to_nat (j + 1))
              with (S (length (take lo arr ++ L) + S (length M1))); [done|].
            rewrite length_app, length_take. simpl in Hlen. lia. }
          rewrite !length_app. simpl.
          split; [lia|]. split; [lia|]. split; [simpl in Hlen; lia|].
          split; [by apply Forall_app; split; [|constructor]|].
          split; [apply Forall_app; inversion HM; subst; split; [done|by constructor]|].
          rewrite Hseg, <- Hperm, <- !app_assoc. simpl.
          apply Permutation_app_head, perm_exchange_ends.
      + exists L, (M ++ [x]). simpl. rewrite Ha.
        split; [rewrite <- !app_assoc; simpl;
                replace (Z.to_nat (j + 1)) with (S (Z.to_nat j)) by lia; done|].
        rewrite length_app. simpl.
        split; [lia|]. split; [lia|]. split; [lia|].
        split; [done|]. split; [by apply Forall_app; split; [|constructor]|].
        by rewrite Hseg, <- Hperm, app_assoc. }
  destruct (foldl _ _ _) as [a i].
  destruct Hloop as (L & M & Ha & Hi1 & Hi2 & Hlen & HL & HM & Hperm). simpl in *.
  fold hi in Ha, Hlen, Hperm.
  rewrite (drop_S _ _ _ Hpiv) in Ha.
  assert (Hseg : seg arr lo (S hi - lo) = seg arr lo (hi - lo) ++ [piv]).
  { unfold seg. replace (S hi - lo)%nat with (S (hi - lo)) by lia.
    apply take_S_r. rewrite lookup_drop. by replace (lo + (hi - lo))%nat with hi by lia. }
  destruct M as [|m0 M1].
  - exists L, piv, []. split; [done|]. simpl in Ha.
    replace (Z.to_nat (i + 1)) with hi by (simpl in Hlen; lia).
    rewrite swap_same, Ha. split.
    { f_equal. f_equal; lia. }
    split; [|split; [done|constructor]].
    rewrite Hseg, <- Hperm. by rewrite !app_nil_r.
  - exists L, piv, (M1 ++ [m0]). split; [done|].
    rewrite Ha, app_assoc.
    replace (Z.to_nat (i + 1)) with (length (take lo arr ++ L))
      by (rewrite length_app, length_take; lia).
    replace hi with (length (take lo arr ++ L) + S (length M1))%nat
      by (rewrite length_app, length_take; simpl in Hlen; lia).
    rewrite <- app_comm_cons, swap_middle. split.
    { f_equal; [rewrite <- ?app_assoc; simpl; rewrite <- ?app_assoc; done|]. lia. }
    split; [|split; [done|apply Forall_app; inversion HM; subst; split; [done|by constructor]]].
    rewrite length_app, length_take.
    replace (S (Nat.min lo (length arr) + length L + S (length M1)) - lo)%nat
      with (S hi - lo)%nat by (simpl in Hlen; lia).
    rewrite Hseg, <- Hperm, <- !app_assoc. simpl.
    apply Permutation_app_head, perm_exchange_ends.
Qed.


Lemma desc_chain_sorted l : desc_chain l -> sorted_desc l.
Proof.
  induction l as [|a t IH]; intros H i x y Hx Hy; [done|].
  destruct t as [|b t']; [destruct i; done|].
  destruct H as [Hab Ht]. destruct i as [|i].
  - simpl in Hx, Hy. simplify_eq. done.
  - exact (IH Ht i x y Hx Hy).
Qed.

Lemma desc_chain_short l : (length l <= 1)%nat -> desc_chain l.
Proof. destruct l as [|a [|b t]]; simpl; intros; [done|done|lia]. Qed.

Lemma desc_chain_pivot L piv R :
  desc_chain L -> desc_chain R ->
  Forall (fun e => score piv < score e)%Z L ->
  Forall (fun e => score e <= score piv)%Z R ->
  desc_chain (L ++ piv :: R).
Proof.
  intros HL HR HLp HRp. induction L as [|a L IH].
  - simpl. destruct R as [|r R']; [done|]. split; [by inversion HRp|done].
  - inversion HLp as [|? ? Ha HLp']; subst.
    destruct L as [|b L'].
    + simpl. split; [lia|]. apply IH; [done|constructor].
    + destruct HL as [Hab HL']. simpl. split; [done|]. by apply IH.
Qed.

Lemma take_drop_split arr (lo n : nat) :
  arr = take lo arr ++ seg arr lo n ++ drop (lo + n) arr.
Proof.
  unfold seg. rewrite <- drop_drop, take_drop. by rewrite take_drop.
Qed.

(** [_quicksort(arr, low, high)] sorts [arr[low..high]] in place and leaves
    the rest of the list untouched. *)
Lemma quicksort_fuel_spec f arr (low high : Z) :
  (0 <= low)%Z -> (low <= high + 1)%Z -> (Z.to_nat (high + 1) <= length arr)%nat ->
  (Z.to_nat (high + 1 - low) <= f)%nat ->
  exists mid,
    quicksort_fuel f arr low high
      = take (Z.to_nat low) arr ++ mid ++ drop (Z.to_nat (high + 1)) arr /\
    mid ≡ₚ seg arr (Z.to_nat low) (Z.to_nat (high + 1 - low)) /\
    desc_chain mid.
Proof.
  revert arr low high. induction f as [|f IH]; intros arr low high H0 Hlh Hn Hf.
  - exists []. simpl. replace (Z.to_nat (high + 1)) with (Z.to_nat low) by lia.
    split; [by rewrite take_drop|].
    unfold seg. replace (Z.to_nat (high + 1 - low)) with 0%nat by lia. done.
  - cbn [quicksort_fuel]. destruct (Z.ltb_spec low high) as [Hlt|Hge].
    + destruct (partition_spec arr low high) as (L & piv & R & _ & Hpart & Hperm & HL & HR);
        [lia|lia|].
      rewrite Hpart.
      set (pre := take (Z.to_nat low) arr) in *.
      set (post := drop (S (Z.to_nat high)) arr) in *.
      assert (Hpre : length pre = Z.to_nat low) by (unfold pre; rewrite length_take; lia).
      pose proof (Permutation_length Hperm) as Hlen.
      unfold seg in Hlen. rewrite length_app, length_take, length_drop in Hlen. simpl in Hlen.
      rewrite Nat.min_l in Hlen by lia.
      assert (Hpost : length post = (length arr - S (Z.to_nat high))%nat)
        by (unfold post; rewrite length_drop; lia).
      destruct (IH (pre ++ L ++ piv :: R ++ post) low
                  (Z.of_nat (Z.to_nat low + length L) - 1)%Z) as (L' & HqL & HpL & HsL);
        [lia|lia|rewrite ?length_app; simpl; rewrite ?length_app; lia|lia|].
      rewrite HqL. clear HqL.
      replace (Z.to_nat (Z.of_nat (Z.to_nat low + length L) - 1 + 1 - low)%Z) with (length L)
        in HpL by lia.
      unfold seg in HpL.
      rewrite (drop_app_length' pre) in HpL by done.
      rewrite take_app_length in HpL.
      rewrite (take_app_length' pre) by done.
      replace (Z.to_nat (Z.of_nat (Z.to_nat low + length L) - 1 + 1)%Z)
        with (length pre + length L)%nat by lia.
      rewrite drop_app_add, drop_app_length.
      pose proof (Permutation_length HpL) as HlenL.
      destruct (IH (pre ++ L' ++ piv :: R ++ post)
                  (Z.of_nat (Z.to_nat low + length L) + 1)%Z high) as (R' & HqR & HpR & HsR);
        [lia|lia|rewrite ?length_app; simpl; rewrite ?length_app; lia|lia|].
      rewrite HqR. clear HqR.
      replace (Z.to_nat (Z.of_nat (Z.to_nat low + length L) + 1)%Z) with
        (length (pre ++ L' ++ [piv])) in HpR |- * by (rewrite ?length_app; simpl; rewrite ?length_app; lia).
      replace (Z.to_nat (high + 1 - (Z.of_nat (Z.to_nat low + length L) + 1))%Z)
        with (length R) in HpR by lia.
      unfold seg in HpR.
      replace (pre ++ L' ++ piv :: R ++ post) with ((pre ++ L' ++ [piv]) ++ R ++ post)
        in HpR |- * by (by rewrite <- !app_assoc).
      rewrite drop_app_length, take_app_length in HpR.
      rewrite take_app_length.
      replace (Z.to_nat (high + 1)%Z) with (length (pre ++ L' ++ [piv]) + length R)%nat
        by (rewrite ?length_app; simpl; rewrite ?length_app; lia).
      rewrite drop_app_add, drop_app_length.
      exists (L' ++ piv :: R'). split; [|split].
      * rewrite <- !app_assoc. simpl.
        replace (drop (length (pre ++ L' ++ [piv]) + length R) arr) with post; [done|].
        unfold post. f_equal. rewrite ?length_app; simpl; lia.
      * rewrite HpL, HpR, Hperm.
        replace (Z.to_nat (high + 1 - low)) with (S (Z.to_nat high) - Z.to_nat low)%nat by lia.
        done.
      * apply desc_chain_pivot; [done|done| |].
        -- by rewrite HpL.
        -- by rewrite HpR.
    + exists (seg arr (Z.to_nat low) (Z.to_nat (high + 1 - low))).
      split; [|split; [done|]].
      * replace (Z.to_nat (high + 1)%Z) with (Z.to_nat low + Z.to_nat (high + 1 - low)%Z)%nat
          by lia.
        apply take_drop_split.
      * apply desc_chain_short. unfold seg. rewrite length_take. lia.
Qed.


Lemma desc_chain_app (X Y : list (A * Z)) :
  desc_chain X -> desc_chain Y ->
  (forall x y, x ∈ X -> y ∈ Y -> (score y <= score x)%Z) ->
  desc_chain (X ++ Y).
Proof.
  intros HX HY Hxy. induction X as [|a X IH]; [done|].
  destruct X as [|b X'].
  - simpl. destruct Y as [|c Y']; [done|]. split; [|done].
    apply Hxy; set_solver.
  - destruct HX as [Hab HX']. simpl. split; [done|].
    apply IH; [done|]. intros x y Hx Hy. apply Hxy; [|done].
    apply elem_of_cons; by right.
Qed.

Lemma manual_sort_descending_spec arr :
  manual_sort_descending arr ≡ₚ arr /\ desc_chain (manual_sort_descending arr).
Proof.
  unfold manual_sort_descending. destruct (Nat.leb_spec (length arr) 1) as [H1|H1].
  - split; [done|]. by apply desc_chain_short.
  - unfold quicksort.
    destruct (quicksort_fuel_spec (length arr) arr 0 (Z.of_nat (length arr) - 1))
      as (mid & Hq & Hp & Hs); [lia|lia|lia|lia|].
    rewrite Hq. replace (Z.to_nat (Z.of_nat (length arr) - 1 + 1)) with (length arr) by lia.
    rewrite drop_all, app_nil_r. simpl. split; [|done].
    rewrite Hp. unfold seg. rewrite drop_0.
    replace (Z.to_nat (Z.of_nat (length arr) - 1 + 1 - 0)) with (length arr) by lia.
    by rewrite take_ge by lia.
Qed.

Lemma manual_sort_descending_perm arr : manual_sort_descending arr ≡ₚ arr.
Proof. apply manual_sort_descending_spec. Qed.

Lemma manual_sort_descending_sorted arr : sorted_desc (manual_sort_descending arr).
Proof. apply desc_chain_sorted, manual_sort_descending_spec. Qed.

Lemma manual_sort_descending_chain arr : desc_chain (manual_sort_descending arr).
Proof. apply manual_sort_descending_spec. Qed.


Lemma find_top_k_pickups_spec self (zc : list (A * Z)) :
  (1 <= k self)%Z ->
  exists H D, find_top_k_pickups self zc = Ok (manual_sort_descending H) /\
    length H = Nat.min (Z.to_nat (k self)) (length zc) /\
    H ++ D ≡ₚ zc /\ dominated D H.
Proof.
  intros Hk. destruct (manual_top_k_spec zc (k self) Hk) as (H & D & HH & Hl & Hp & Hd).
  exists H, D. unfold find_top_k_pickups. rewrite HH. done.
Qed.


End TopKProofs.

(** ** Claims about [TopKZones] *)

(** C1 (code bug): with [k = 0] and a non-empty mapping,
    [find_top_k_pickups] does not return an empty list: [heap = items[:0]]
    is empty and the first loop iteration reads [heap[0]], raising
    [IndexError]. *)
Theorem C1_k0_raises {A : Type} (zone_id : A) (count : Z) rest :
  find_top_k_pickups {| k := 0 |} ((zone_id, count) :: rest) = Err IndexError.
Proof.
  unfold find_top_k_pickups, manual_top_k. cbn [k length].
  rewrite Nat2Z.inj_succ.
  destruct (Z.leb_spec (Z.succ (Z.of_nat (length rest))) 0) as [H|H]; [lia|].
  unfold py_slice_upto. cbn -[py_range].
  rewrite (py_range_cons 0 (Z.succ (Z.of_nat (length rest)))) by lia.
  reflexivity.
Qed.

(** C2: for [k >= 1], the entries returned by [find_top_k_pickups] are,
    up to order, the first [min(k, |scores|)] entries of a full descending
    sort of all the entries (a list [ref] that is a permutation of the input
    and non-increasing by score; tied entries may sit in any order). *)
Theorem C2_top_k_selection {A : Type} (self : TopKZones) (zone_counts : list (A * Z)) :
  (1 <= k self)%Z ->
  exists res, find_top_k_pickups self zone_counts = Ok res /\
    exists ref, ref ≡ₚ zone_counts /\ sorted_desc ref /\
      res ≡ₚ take (Nat.min (Z.to_nat (k self)) (length zone_counts)) ref.
Proof.
  intros Hk. destruct (find_top_k_pickups_spec self zone_counts Hk)
    as (H & D & Hf & Hl & Hp & Hd).
  eexists; split; [exact Hf|].
  exists (manual_sort_descending H ++ manual_sort_descending D). split; [|split].
  - by rewrite !manual_sort_descending_perm.
  - apply desc_chain_sorted, desc_chain_app; try apply manual_sort_descending_chain.
    intros x y Hx Hy. apply Hd.
    + by rewrite <- (manual_sort_descending_perm D).
    + by rewrite <- (manual_sort_descending_perm H).
  - rewrite <- Hl, <- (Permutation_length (manual_sort_descending_perm H)).
    by rewrite take_app_length.
Qed.

(** C3: for [k >= 1], [find_top_k_pickups] succeeds and adjacent entries
    of its result are non-increasing by score. *)
Theorem C3_result_sorted {A : Type} (self : TopKZones) (zone_counts : list (A * Z)) :
  (1 <= k self)%Z ->
  exists res, find_top_k_pickups self zone_counts = Ok res /\
    forall i a b, res !! i = Some a -> res !! S i = Some b -> (score b <= score a)%Z.
Proof.
  intros Hk. destruct (find_top_k_pickups_spec self zone_counts Hk)
    as (H & D & Hf & _).
  eexists; split; [exact Hf|]. apply manual_sort_descending_sorted.
Qed.

(** C8: [find_top_k_pickups] reads only [self.k] and the entries of the
    mapping in iteration order, writes neither (the heap and the sorted list
    are fresh lists), so two calls in a row on the same instance and input
    return the same value, tie order included. *)
Theorem C8_deterministic {A : Type} (self : TopKZones) (zone_counts : list (A * Z)) :
  match find_top_k_pickups self zone_counts with
  | Ok r => run_twice self zone_counts = Ok (r, r)
  | Err e => run_twice self zone_counts = Err e
  end.
Proof.
  unfold run_twice. destruct (find_top_k_pickups self zone_counts); done.
Qed.



(** ** Witnesses *)

Lemma C2_top_k_selection_witness :
  (1 <= k {| k := 2 |})%Z /\
  exists res, find_top_k_pickups {| k := 2 |} example_counts = Ok res /\
    exists ref, ref ≡ₚ example_counts /\ sorted_desc ref /\
      res ≡ₚ take (Nat.min (Z.to_nat (k {| k := 2 |})) (length example_counts)) ref.
Proof. split; [simpl; lia|]. apply (C2_top_k_selection {| k := 2 |} example_counts). simpl; lia. Defined.

Lemma C3_result_sorted_witness :
  (1 <= k {| k := 2 |})%Z /\
  exists res, find_top_k_pickups {| k := 2 |} example_counts = Ok res /\
    forall i a b, res !! i = Some a -> res !! S i = Some b -> (score b <= score a)%Z.
Proof. split; [simpl; lia|]. apply (C3_result_sorted {| k := 2 |} example_counts). simpl; lia. Defined.


(** ** Properties of the float primitives *)

Section FloatFacts.

Lemma Prim2SF_zero : Prim2SF 0%float = S754_zero false.
Proof. reflexivity. Qed.

Lemma leb_zero_cases n :
  (n <=? 0)%float = true -> (n <? 0)%float = true \/ (n =? 0)%float = true.
Proof.
  rewrite FloatAxioms.leb_spec, FloatAxioms.ltb_spec, FloatAxioms.eqb_spec, Prim2SF_zero.
  destruct (Prim2SF n) as [[]|[]| |[] m e]; simpl; auto.
Qed.

Lemma leb_zero_not_pos x : (x <=? 0)%float = true -> (0 <? x)%float = false.
Proof.
  rewrite FloatAxioms.leb_spec, FloatAxioms.ltb_spec, Prim2SF_zero.
  destruct (Prim2SF x) as [[]|[]| |[] m e]; simpl; auto.
Qed.

Lemma pos_not_zero x : (0 <? x)%float = true -> (x =? 0)%float = false.
Proof.
  rewrite FloatAxioms.ltb_spec, FloatAxioms.eqb_spec, Prim2SF_zero.
  destruct (Prim2SF x) as [[]|[]| |[] m e]; simpl; auto.
Qed.

Lemma is_finite_cases v :
  is_finite v = true ->
  (exists s, Prim2SF v = S754_zero s) \/ (exists s m e, Prim2SF v = S754_finite s m e).
Proof.
  unfold is_finite, is_nan, is_infinity. rewrite !FloatAxioms.eqb_spec, FloatAxioms.abs_spec.
  change (Prim2SF infinity) with (S754_infinity false).
  destruct (Prim2SF v) as [s|s| |s m e]; simpl; eauto.
  - destruct s; simpl; discriminate.
  - discriminate.
Qed.

Lemma sub_self_zero v : is_finite v = true -> Prim2SF (v - v)%float = S754_zero false.
Proof.
  intros Hv. rewrite FloatAxioms.sub_spec. unfold SF64sub, SFsub.
  destruct (is_finite_cases v Hv) as [[s Hs]|(s & m & e & Hs)]; rewrite Hs.
  - destruct s; reflexivity.
  - cbv iota beta. rewrite Z.sub_diag. reflexivity.
Qed.

Lemma div_nan_r x : SF64div x S754_nan = S754_nan.
Proof. destruct x as [[]|[]| |[] m e]; reflexivity. Qed.

Lemma div_zero_l x y :
  Prim2SF x = S754_zero false -> Prim2SF y <> S754_nan -> (y =? 0)%float = false ->
  exists s, Prim2SF (x / y)%float = S754_zero s.
Proof.
  intros Hx Hy Hy0. rewrite FloatAxioms.div_spec, Hx. rewrite FloatAxioms.eqb_spec, Prim2SF_zero in Hy0.
  unfold SF64div, SFdiv.
  destruct (Prim2SF y) as [[]|[]| |[] m e]; simpl in *; try discriminate; eauto; done.
Qed.

Lemma sqrt_of_zero x s : Prim2SF x = S754_zero s -> manual_sqrt x = Ok 0%float.
Proof.
  intros Hx. unfold manual_sqrt. rewrite FloatAxioms.ltb_spec, FloatAxioms.eqb_spec, Hx, Prim2SF_zero.
  destruct s; reflexivity.
Qed.


Lemma newton_loop (n : float) (a m : nat) (x y : float) :
  for_each (seq a m) (fun x _ => let! q := py_div n x in py_div (x + q)%float 2) x = Ok y ->
  y = Nat.iter m (fun x => (x + n / x) / 2)%float x.
Proof.
  revert a x. induction m as [|m IH]; intros a x H.
  - simpl in H |- *. by inversion H.
  - cbn [seq for_each] in H. unfold py_div at 1 in H.
    destruct (x =? 0)%float; [discriminate|]. cbn [bind] in H.
    unfold py_div at 1 in H. change (2 =? 0)%float with false in H. cbn [bind] in H.
    rewrite Nat.iter_succ_r. exact (IH _ _ H).
Qed.

Lemma squares_zero (vs : list float) (v acc : float) :
  Forall (fun x => x = v) vs -> is_finite v = true -> Prim2SF acc = S754_zero false ->
  Prim2SF (foldl (fun s x => let diff := (x - v)%float in (s + diff * diff)%float) acc vs)
    = S754_zero false.
Proof.
  intros Hall Hv. revert acc. induction Hall as [|x vs Hx Hall IH]; intros acc Hacc; [done|].
  simpl. apply IH. subst x.
  rewrite FloatAxioms.add_spec, FloatAxioms.mul_spec, sub_self_zero, Hacc by done.
  reflexivity.
Qed.

Lemma calculate_mean_div (values : list float) (m : float) :
  values <> [] -> calculate_mean values = Ok m ->
  (float_of_len (length values) =? 0)%float = false /\
  m = (foldl (fun total v => (total + v)%float) 0%float values / float_of_len (length values))%float.
Proof.
  intros Hne. destruct values as [|x xs]; [done|]. unfold calculate_mean, py_div.
  destruct (float_of_len (length (x :: xs)) =? 0)%float; [discriminate|].
  intros H. inversion H. done.
Qed.

Lemma finite_not_nan v : is_finite v = true -> Prim2SF v <> S754_nan.
Proof. intros Hv. destruct (is_finite_cases v Hv) as [[s ->]|(s & m & e & ->)]; discriminate. Qed.

Lemma not_leb_zero_not_zero x : (x <=? 0)%float = false -> (x =? 0)%float = false.
Proof.
  rewrite FloatAxioms.leb_spec, FloatAxioms.eqb_spec, Prim2SF_zero.
  destruct (Prim2SF x) as [[]|[]| |[] m e]; simpl; auto.
Qed.

End FloatFacts.


(** ** Properties of the detector passes *)

Section DetectorProofs.

Lemma map_result_ok {X Y} (f : X -> result Y) l ys :
  map_result f l = Ok ys -> forall x, x ∈ l -> exists y, f x = Ok y.
Proof.
  revert ys. induction l as [|x0 l IH]; intros ys H x Hx; [by apply not_elem_of_nil in Hx|].
  simpl in H. destruct (f x0) as [y0|e] eqn:E0; [|discriminate]. simpl in H.
  destruct (map_result f l) as [ys'|e] eqn:E; [|discriminate].
  apply elem_of_cons in Hx as [->|Hx]; [eauto|]. exact (IH ys' eq_refl x Hx).
Qed.

Lemma map_result_all_ok {X Y} (f : X -> result Y) l :
  (forall x, x ∈ l -> exists y, f x = Ok y) -> exists ys, map_result f l = Ok ys.
Proof.
  induction l as [|x l IH]; intros H; [by exists []|].
  destruct (H x) as [y Hy]; [apply elem_of_cons; by left|].
  destruct IH as [ys Hys]; [intros z Hz; apply H, elem_of_cons; by right|].
  exists (y :: ys). simpl. rewrite Hy. simpl. by rewrite Hys.
Qed.

Lemma map_result_err {X Y} (f : X -> result Y) l x e :
  x ∈ l -> f x = Err e -> (forall y e', f y = Err e' -> e' = e) ->
  map_result f l = Err e.
Proof.
  intros Hx Hfx Honly. induction l as [|x0 l IH]; [by apply not_elem_of_nil in Hx|].
  simpl. destruct (f x0) as [y0|e0] eqn:E0.
  - apply elem_of_cons in Hx as [->|Hx]; [congruence|]. simpl.
    by rewrite (IH Hx).
  - simpl. f_equal. exact (Honly x0 e0 E0).
Qed.

Lemma for_each_inv {St X} (P : St -> Prop) (xs : list X) body (s : St) :
  P s -> (forall x s, x ∈ xs -> P s -> exists s', body s x = Ok s' /\ P s') ->
  exists s', for_each xs body s = Ok s' /\ P s'.
Proof.
  revert s. induction xs as [|x xs IH]; intros s Hs Hbody; [by exists s|].
  destruct (Hbody x s) as (s1 & E1 & P1); [apply elem_of_cons; by left|done|].
  simpl. rewrite E1. simpl. apply IH; [done|].
  intros y t Hy. apply Hbody. apply elem_of_cons; by right.
Qed.

Lemma elem_of_zip_snd {X Y} (l1 : list X) (l2 : list Y) a b :
  (a, b) ∈ zip l1 l2 -> b ∈ l2.
Proof.
  revert l2. induction l1 as [|x l1 IH]; intros [|y l2] H; simpl in H;
    try by apply not_elem_of_nil in H.
  apply elem_of_cons in H as [E|H].
  - inversion E. apply elem_of_cons. by left.
  - apply elem_of_cons. right. exact (IH l2 H).
Qed.

Lemma elem_of_enumerate {X} (l : list X) i x : (i, x) ∈ enumerate l -> x ∈ l.
Proof. apply elem_of_zip_snd. Qed.

Lemma elem_of_index_fold (L : list (list anomaly)) (s : gset nat) i :
  i ∈ foldl (fun s anomaly_list => foldl (fun s a => {[ index a ]} ∪ s) s anomaly_list) s L
  <-> i ∈ s \/ exists a, a ∈ concat L /\ index a = i.
Proof.
  revert s. induction L as [|al L IH]; intros s; simpl.
  - split; [by left|]. intros [H|(a & Ha & _)]; [done|by apply not_elem_of_nil in Ha].
  - rewrite IH. clear IH. revert s. induction al as [|a al IHa]; intros s; simpl.
    + done.
    + rewrite IHa. set_solver.
Qed.

End DetectorProofs.

(** ** Claims about [AnomalyDetector] *)

(** C6: [_manual_sqrt] returns [0] for every [n <= 0]; for any other [n]
    it performs exactly ten Newton steps [x := (x + n / x) / 2] from
    [x0 = n / 2.0], and whenever it returns, its value is that of the ten
    steps; [sqrt(0) == 0] and [sqrt(4)] is within [1e-9] of [2.0]. *)
Theorem C6_manual_sqrt :
  (forall n, (n <=? 0)%float = true -> manual_sqrt n = Ok 0%float) /\
  (forall n x, (n <? 0)%float = false -> (n =? 0)%float = false ->
     manual_sqrt n = Ok x -> x = newton_sqrt_spec n) /\
  manual_sqrt 0 = Ok 0%float /\
  exists x, manual_sqrt 4 = Ok x /\ (abs (x - 2) <? one_e_minus_9)%float = true.
Proof.
  split; [|split; [|split]].
  - intros n Hn. unfold manual_sqrt.
    destruct (leb_zero_cases n Hn) as [->| ->]; [done|].
    destruct (n <? 0)%float; done.
  - intros n x Hlt Heq. unfold manual_sqrt. rewrite Hlt, Heq.
    unfold py_div at 1. change (2 =? 0)%float with false. cbn [bind].
    intros H. apply newton_loop in H. exact H.
  - reflexivity.
  - exists 2%float. split; reflexivity.
Qed.

(** C7 (counterexample): for the constant list [[0.1, 0.1, 0.1]],
    [_calculate_std] (with the mean computed by [_calculate_mean]) is
    [2^-9 = 0.001953125], not [0]: the computed mean is [0.1] plus one
    ulp, and the ten Newton steps from half of the tiny variance do not
    converge. *)
Lemma C7_counterexample :
  calculate_std [point_one; point_one; point_one] None = Ok 0x1p-9%float.
Proof. vm_compute. reflexivity. Qed.

(** C7 (amended): for a non-empty list whose values all equal a finite [v],
    [_calculate_std] is [0] whenever [_calculate_mean] computes exactly
    [v]. *)
Theorem C7_constant_std (values : list float) (v : float) :
  values <> [] -> Forall (fun x => x = v) values -> is_finite v = true ->
  calculate_mean values = Ok v ->
  calculate_std values None = Ok 0%float.
Proof.
  intros Hne Hall Hv Hmean.
  destruct (calculate_mean_div values v Hne Hmean) as [Hlen Hm].
  assert (Hnan : Prim2SF (float_of_len (length values)) <> S754_nan).
  { intros E. apply (finite_not_nan v Hv). rewrite Hm, FloatAxioms.div_spec, E.
    apply div_nan_r. }
  destruct values as [|x xs]; [done|].
  unfold calculate_std. rewrite Hmean. cbn [bind].
  unfold py_div at 1. rewrite Hlen. cbn [bind].
  destruct (div_zero_l
              (foldl (fun s x => let diff := (x - v)%float in (s + diff * diff)%float)
                 0%float (x :: xs))
              (float_of_len (length (x :: xs)))) as [s Hs];
    [apply squares_zero; [done|done|reflexivity]|done|done|].
  exact (sqrt_of_zero _ s Hs).
Qed.

(** C9: when the computed population standard deviation of the fares is
    [<= 0], [detect_fare_anomalies] on trips that all carry a fare and a
    distance returns normally (no division by the zero deviation is ever
    attempted) and emits no [fare_outlier] record. *)
Theorem C9_no_outlier_when_std_nonpos (py_round : float -> Z -> float)
    (self : AnomalyDetector) (trips : list Trip) (fares : list float) (m s : float) :
  map_result (fun t => py_getitem (fare_amount t)) trips = Ok fares ->
  Forall (fun t => is_Some (trip_distance t)) trips ->
  calculate_mean fares = Ok m ->
  calculate_std fares (Some m) = Ok s ->
  (s <=? 0)%float = true ->
  exists l, detect_fare_anomalies py_round self trips = Ok l /\
    Forall (fun a => reason a <> fare_outlier) l.
Proof.
  intros Hf Hd Hm Hs Hs0. rewrite Forall_forall in Hd.
  destruct (map_result_all_ok (fun t => py_getitem (trip_distance t)) trips) as [ds Hds].
  { intros t Ht. destruct (Hd t Ht) as [d Ed]. exists d. by rewrite Ed. }
  destruct trips as [|t0 ts]; [exists []; split; constructor|].
  unfold detect_fare_anomalies. rewrite Hf. cbn [bind]. rewrite Hds. cbn [bind].
  rewrite Hm. cbn [bind]. rewrite Hs. cbn [bind].
  apply for_each_inv; [constructor|].
  intros [i trip] acc Hin Hacc. apply elem_of_enumerate in Hin.
  destruct (map_result_ok _ _ _ Hf trip Hin) as [fare Efare].
  destruct (Hd trip Hin) as [distance Edist].
  cbv beta iota. rewrite Efare. cbn [bind]. rewrite Edist. cbn [py_getitem bind].
  rewrite (leb_zero_not_pos s Hs0). cbn [bind].
  destruct (0 <? distance)%float eqn:Hpos.
  - unfold py_div. rewrite (pos_not_zero distance Hpos). cbn [bind].
    destruct (_ || _); eexists; (split; [reflexivity|]); [|done].
    apply Forall_app. split; [done|]. constructor; [discriminate|constructor].
  - eexists; split; [reflexivity|done].
Qed.

(** C5 (code bug): a single trip without a [fare_amount] makes
    [detect_fare_anomalies] raise [KeyError] (it reads [t['fare_amount']]),
    so [detect_all_anomalies] aborts for the whole batch instead of
    defaulting the field. *)
Theorem C5_missing_fare_aborts (py_round : float -> Z -> float)
    (self : AnomalyDetector) (trips : list Trip) (t : Trip) :
  t ∈ trips -> fare_amount t = None ->
  detect_all_anomalies py_round self trips = Err KeyError.
Proof.
  intros Hin Hnone. destruct trips as [|t0 ts]; [by apply not_elem_of_nil in Hin|].
  unfold detect_all_anomalies, detect_fare_anomalies.
  rewrite (map_result_err (fun t => py_getitem (fare_amount t)) (t0 :: ts) t KeyError).
  - reflexivity.
  - done.
  - by rewrite Hnone.
  - intros y e' E. destruct (fare_amount y); simpl in E; congruence.
Qed.

(** C4: when [detect_all_anomalies] returns, [total_anomalous_trips] is the
    number of distinct indices flagged by any pass (the length of a
    duplicate-free list of exactly those indices) and [anomaly_rate] is that
    number divided by the number of trips ([0] for no trips); and
    [get_anomaly_summary] reports [len(trips)], that distinct count, the rate
    times 100 rounded to 2 decimals, and the raw lengths of the three pass
    lists. *)
Theorem C4_aggregate_counts (py_round : float -> Z -> float)
    (self : AnomalyDetector) (trips : list Trip) (res : AllAnomalies) :
  detect_all_anomalies py_round self trips = Ok res ->
  (exists l, NoDup l /\
     (forall i, i ∈ l <-> exists a,
        a ∈ fare_anomalies res ++ speed_anomalies res ++ mismatch_anomalies res /\
        index a = i) /\
     total_anomalous_trips res = length l) /\
  anomaly_rate res =
    match trips with
    | [] => 0%float
    | _ => (float_of_len (total_anomalous_trips res) / float_of_len (length trips))%float
    end /\
  get_anomaly_summary py_round self trips =
    Ok {| total_trips := length trips;
          total_anomalies := total_anomalous_trips res;
          anomaly_rate_percent := py_round (anomaly_rate res * 100)%float 2%Z;
          summary_fare_anomalies := length (fare_anomalies res);
          summary_speed_anomalies := length (speed_anomalies res);
          summary_mismatch_anomalies := length (mismatch_anomalies res) |}.
Proof.
  intros H. split; [|split].
  - unfold detect_all_anomalies in H.
    destruct (detect_fare_anomalies py_round self trips) as [fa|]; [|discriminate].
    destruct (detect_speed_anomalies py_round self trips) as [sa|]; [|discriminate].
    destruct (detect_distance_time_mismatch py_round self trips) as [ma|]; [|discriminate].
    cbn [bind] in H.
    set (X := foldl _ ∅ [fa; sa; ma]) in H.
    destruct (match trips with [] => _ | _ => _ end) as [rate|]; [|discriminate].
    cbn [bind] in H. inversion H; subst; simpl.
    exists (elements X). split; [apply NoDup_elements|]. split; [|reflexivity].
    intros i. rewrite elem_of_elements. unfold X. rewrite elem_of_index_fold.
    simpl. rewrite app_nil_r. set_solver.
  - unfold detect_all_anomalies in H.
    destruct (detect_fare_anomalies py_round self trips) as [fa|]; [|discriminate].
    destruct (detect_speed_anomalies py_round self trips) as [sa|]; [|discriminate].
    destruct (detect_distance_time_mismatch py_round self trips) as [ma|]; [|discriminate].
    cbn [bind] in H. destruct trips as [|t ts].
    + inversion H. done.
    + unfold py_div in H. destruct (_ =? 0)%float; [discriminate|].
      cbn [bind] in H. inversion H. done.
  - unfold get_anomaly_summary. rewrite H. reflexivity.
Qed.

Lemma C4_aggregate_counts_witness :
  exists res,
  detect_all_anomalies no_round default_detector example_trips = Ok res /\
  ((exists l, NoDup l /\
     (forall i, i ∈ l <-> exists a,
        a ∈ fare_anomalies res ++ speed_anomalies res ++ mismatch_anomalies res /\
        index a = i) /\
     total_anomalous_trips res = length l) /\
  anomaly_rate res =
    match example_trips with
    | [] => 0%float
    | _ => (float_of_len (total_anomalous_trips res) / float_of_len (length example_trips))%float
    end /\
  get_anomaly_summary no_round default_detector example_trips =
    Ok {| total_trips := length example_trips;
          total_anomalies := total_anomalous_trips res;
          anomaly_rate_percent := no_round (anomaly_rate res * 100)%float 2%Z;
          summary_fare_anomalies := length (fare_anomalies res);
          summary_speed_anomalies := length (speed_anomalies res);
          summary_mismatch_anomalies := length (mismatch_anomalies res) |}).
Proof.
  eexists. split; [vm_compute; reflexivity|].
  apply (C4_aggregate_counts no_round default_detector example_trips).
  vm_compute. reflexivity.
Defined.

Lemma C5_missing_fare_aborts_witness :
  trip_without_fare ∈ [trip_without_fare] /\ fare_amount trip_without_fare = None /\
  detect_all_anomalies no_round default_detector [trip_without_fare] = Err KeyError.
Proof.
  split; [by left|]. split; [reflexivity|].
  apply (C5_missing_fare_aborts no_round default_detector [trip_without_fare] trip_without_fare);
    [by left|reflexivity].
Defined.

Lemma C7_constant_std_witness :
  [0.5%float; 0.5%float; 0.5%float] <> [] /\
  Forall (fun x => x = 0.5%float) [0.5%float; 0.5%float; 0.5%float] /\
  is_finite 0.5%float = true /\
  calculate_mean [0.5%float; 0.5%float; 0.5%float] = Ok 0.5%float /\
  calculate_std [0.5%float; 0.5%float; 0.5%float] None = Ok 0%float.
Proof.
  split; [discriminate|]. split; [repeat constructor|]. split; [reflexivity|].
  split; [vm_compute; reflexivity|].
  apply (C7_constant_std [0.5%float; 0.5%float; 0.5%float] 0.5%float);
    [discriminate|repeat constructor|reflexivity|vm_compute; reflexivity].
Defined.

Lemma C9_no_outlier_when_std_nonpos_witness :
  map_result (fun t => py_getitem (fare_amount t)) equal_fare_trips = Ok [1%float; 1%float] /\
  Forall (fun t => is_Some (trip_distance t)) equal_fare_trips /\
  calculate_mean [1%float; 1%float] = Ok 1%float /\
  calculate_std [1%float; 1%float] (Some 1%float) = Ok 0%float /\
  (0 <=? 0)%float = true /\
  exists l, detect_fare_anomalies no_round default_detector equal_fare_trips = Ok l /\
    Forall (fun a => reason a <> fare_outlier) l.
Proof.
  split; [reflexivity|]. split; [repeat constructor; eexists; reflexivity|].
  split; [vm_compute; reflexivity|]. split; [vm_compute; reflexivity|].
  split; [reflexivity|].
  apply (C9_no_outlier_when_std_nonpos no_round default_detector equal_fare_trips
           [1%float; 1%float] 1%float 0%float);
    [reflexivity|repeat constructor; eexists; reflexivity
    |vm_compute; reflexivity|vm_compute; reflexivity|reflexivity].
Defined.

(** With a zero fare deviation the fare-per-mile check still fires: a
    [$1] fare over one mile and over four miles are both below [$2/mile]. *)
Example equal_fare_per_mile :
  match detect_fare_anomalies no_round default_detector equal_fare_trips with
  | Ok l => map reason l
  | Err _ => []
  end = [fare_per_mile_anomaly; fare_per_mile_anomaly].
Proof. vm_compute. reflexivity. Qed.

(** ** Further properties *)

(** For [k >= 1], [find_top_k_pickups] returns [min(k, |scores|)] entries. *)
Theorem X1_top_k_length {A : Type} (self : TopKZones) (zone_counts : list (A * Z)) :
  (1 <= k self)%Z ->
  exists res, find_top_k_pickups self zone_counts = Ok res /\
    length res = Nat.min (Z.to_nat (k self)) (length zone_counts).
Proof.
  intros Hk. destruct (find_top_k_pickups_spec self zone_counts Hk)
    as (H & D & Hf & Hl & _).
  eexists; split; [exact Hf|].
  by rewrite (Permutation_length (manual_sort_descending_perm H)).
Qed.

Lemma X1_top_k_length_witness :
  (1 <= k {| k := 2 |})%Z /\
  exists res, find_top_k_pickups {| k := 2 |} example_counts = Ok res /\
    length res = Nat.min (Z.to_nat (k {| k := 2 |})) (length example_counts).
Proof. split; [simpl; lia|]. apply (X1_top_k_length {| k := 2 |} example_counts). simpl; lia. Defined.

(** [_manual_sqrt] raises [ZeroDivisionError] on the smallest positive
    float [5e-324]: [n / 2.0] rounds to [0.0] and the first Newton step
    divides by it. *)
Theorem X2_sqrt_subnormal_raises : manual_sqrt 0x1p-1074%float = Err ZeroDivisionError.
Proof. vm_compute. reflexivity. Qed.

(** The speed and the distance/time passes never raise: a missing distance
    or duration reads as [0] and skips the trip, and their divisions are by
    a duration [> 0] (or NaN) and by [15]. *)
Theorem X3_speed_mismatch_total (py_round : float -> Z -> float)
    (self : AnomalyDetector) (trips : list Trip) :
  (exists l, detect_speed_anomalies py_round self trips = Ok l) /\
  (exists l, detect_distance_time_mismatch py_round self trips = Ok l).
Proof.
  split.
  - unfold detect_speed_anomalies.
    match goal with |- exists l, for_each ?xs ?body ?s0 = Ok l =>
      destruct (for_each_inv (fun _ => True) xs body s0 I) as [l [Hl _]];
        [|by exists l] end.
    intros [i trip] acc _ _. cbv beta iota zeta.
    destruct (py_get (trip_duration_min trip) 0 <=? 0)%float eqn:Hdur; simpl;
      [by eexists|].
    destruct (py_get (trip_distance trip) 0 <=? 0)%float; [by eexists|].
    unfold py_div. rewrite (not_leb_zero_not_zero _ Hdur). cbn [bind].
    repeat match goal with |- context [if ?b then _ else _] => destruct b end;
      by eexists.
  - unfold detect_distance_time_mismatch.
    match goal with |- exists l, for_each ?xs ?body ?s0 = Ok l =>
      destruct (for_each_inv (fun _ => True) xs body s0 I) as [l [Hl _]];
        [|by exists l] end.
    intros [i trip] acc _ _. cbv beta iota zeta.
    destruct (_ || _)%bool; [by eexists|].
    unfold py_div. change (15 =? 0)%float with false. cbn [bind].
    destruct (_ || _)%bool; by eexists.
Qed.

(** ** Loop lemmas for the detection passes *)

Section PassProofs.

Lemma SFleb_ltb_trans a b c :
  SFleb a b = true -> SFltb b c = true -> SFltb a c = true.
Proof.
  unfold SFleb, SFltb.
  destruct a as [sa|sa| |sa ma ea], b as [sb|sb| |sb mb eb], c as [sc|sc| |sc mc ec];
    try destruct sa; try destruct sb; try destruct sc; simpl; try discriminate; auto;
  rewrite ?Pos.compare_cont_spec;
  repeat match goal with
  | |- context [Z.compare ?x ?y] => destruct (Z.compare_spec x y)
  | |- context [Pos.compare ?x ?y] => destruct (Pos.compare_spec x y)
  end; simpl; intros; try discriminate; auto; try lia.
Qed.

Lemma leb_ltb_trans (a b c : float) :
  (a <=? b)%float = true -> (b <? c)%float = true -> (a <? c)%float = true.
Proof.
  rewrite !FloatAxioms.leb_spec, !FloatAxioms.ltb_spec. apply SFleb_ltb_trans.
Qed.

Lemma for_each_rel {S1 S2 X} (R : S1 -> S2 -> Prop) (xs : list X) b1 b2 s1 s2 :
  R s1 s2 ->
  (forall x t1 t2, x ∈ xs -> R t1 t2 -> res_rel R (b1 t1 x) (b2 t2 x)) ->
  res_rel R (for_each xs b1 s1) (for_each xs b2 s2).
Proof.
  revert s1 s2. induction xs as [|x xs IH]; intros s1 s2 Hs Hb; simpl; [done|].
  pose proof (Hb x s1 s2 ltac:(apply elem_of_cons; by left) Hs) as H.
  destruct (b1 s1 x) as [t1|e1], (b2 s2 x) as [t2|e2]; simpl in H |- *; try done.
  apply IH; [done|]. intros y u1 u2 Hy. apply Hb. apply elem_of_cons. by right.
Qed.

Lemma fare_threshold_mono py_round (d1 d2 : AnomalyDetector) trips :
  (z_threshold d1 <=? z_threshold d2)%float = true ->
  res_rel (fun l1 l2 => l2 `sublist_of` l1)
    (detect_fare_anomalies py_round d1 trips) (detect_fare_anomalies py_round d2 trips).
Proof.
  intros Ht. unfold detect_fare_anomalies. destruct trips as [|t0 ts]; [simpl; constructor|].
  destruct (map_result (fun t => py_getitem (fare_amount t)) (t0 :: ts)) as [fares|e]; cbn [bind res_rel]; [|done].
  destruct (map_result (fun t => py_getitem (trip_distance t)) (t0 :: ts)) as [dists|e]; cbn [bind res_rel]; [|done].
  destruct (calculate_mean fares) as [m|e]; cbn [bind res_rel]; [|done].
  destruct (calculate_std fares (Some m)) as [sd|e]; cbn [bind res_rel]; [|done].
  apply for_each_rel; [constructor|].
  intros [i trip] l1 l2 _ Hl. cbv beta iota.
  destruct (py_getitem (fare_amount trip)) as [fare|e]; simpl; [|done].
  destruct (py_getitem (trip_distance trip)) as [dist|e]; simpl; [|done].
  assert (Hz : res_rel (fun l1 l2 => l2 `sublist_of` l1)
    (if (0 <? sd)%float then
       let! z_score := py_div (fare - m)%float sd in
       if (z_threshold d1 <? abs z_score)%float then
         Ok (l1 ++ [{| index := i; anomaly_trip_id := trip_id trip; reason := fare_outlier;
                      details := [(key_z_score, py_round z_score 2%Z); (key_fare, fare)] |}])
       else Ok l1
     else Ok l1)
    (if (0 <? sd)%float then
       let! z_score := py_div (fare - m)%float sd in
       if (z_threshold d2 <? abs z_score)%float then
         Ok (l2 ++ [{| index := i; anomaly_trip_id := trip_id trip; reason := fare_outlier;
                      details := [(key_z_score, py_round z_score 2%Z); (key_fare, fare)] |}])
       else Ok l2
     else Ok l2)).
  { destruct (0 <? sd)%float eqn:Hsd; [|done].
    unfold py_div. rewrite (pos_not_zero _ Hsd). cbn [bind].
    destruct (z_threshold d2 <? abs ((fare - m) / sd))%float eqn:E2.
    - rewrite (leb_ltb_trans _ _ _ Ht E2). simpl. by apply sublist_app.
    - destruct (z_threshold d1 <? _)%float; simpl; [by apply sublist_inserts_r|done]. }
  destruct (if (0 <? sd)%float then _ else _) as [a1|e1],
    (if (0 <? sd)%float then _ else _) as [a2|e2]; simpl in Hz |- *; try done.
  destruct (0 <? dist)%float; [|done].
  destruct (py_div fare dist) as [fpm|e]; simpl; [|done].
  destruct (_ || _)%bool; simpl; [by apply sublist_app|done].
Qed.

Lemma index_set_subseteq (L1 L2 : list (list anomaly)) :
  (forall a, a ∈ concat L2 -> a ∈ concat L1) ->
  foldl (fun s anomaly_list => foldl (fun s a => {[ index a ]} ∪ s) s anomaly_list) (∅ : gset nat) L2
  ⊆ foldl (fun s anomaly_list => foldl (fun s a => {[ index a ]} ∪ s) s anomaly_list) ∅ L1.
Proof.
  intros H i. rewrite !elem_of_index_fold. intros [Hi|(a & Ha & <-)]; [set_solver|].
  right. exists a. auto.
Qed.

Lemma for_each_blocks_ok {X T} (P : X -> list T -> Prop) (xs : list X) body (s s' : list T) :
  (forall x s s', x ∈ xs -> body s x = Ok s' -> exists e, s' = s ++ e /\ P x e) ->
  for_each xs body s = Ok s' -> exists es, s' = s ++ concat es /\ Forall2 P xs es.
Proof.
  revert s. induction xs as [|x xs IH]; intros s H Hf; simpl in Hf.
  - inversion Hf. exists []. by rewrite app_nil_r.
  - destruct (body s x) as [s1|e] eqn:E; [|discriminate]. simpl in Hf.
    destruct (H x s s1) as (e1 & -> & Pe); [apply elem_of_cons; by left|done|].
    destruct (IH (s ++ e1)) as (es & -> & Hes); [|done|].
    + intros y t t' Hy. apply H. apply elem_of_cons. by right.
    + exists (e1 :: es). split; [simpl; by rewrite app_assoc|by constructor].
Qed.

Lemma elem_of_zip_seq {X} (l : list X) (st i : nat) (t : X) :
  (i, t) ∈ zip (seq st (length l)) l <-> (st <= i)%nat /\ l !! (i - st)%nat = Some t.
Proof.
  revert st. induction l as [|x l IH]; intros st; simpl.
  - split; [intros H; by apply not_elem_of_nil in H|]. intros [_ H]; done.
  - rewrite elem_of_cons, IH. split.
    + intros [E|[Hle Hl]]; [inversion E; subst; by rewrite Nat.sub_diag|].
      split; [lia|]. by replace (i - st)%nat with (S (i - S st)) by lia.
    + intros [Hle Hl]. destruct (decide (i = st)) as [->|Hne].
      * left. rewrite Nat.sub_diag in Hl. by inversion Hl.
      * right. split; [lia|]. by replace (i - st)%nat with (S (i - S st)) in Hl by lia.
Qed.

Lemma elem_of_enumerate_lookup {X} (l : list X) i t :
  (i, t) ∈ enumerate l <-> l !! i = Some t.
Proof.
  unfold enumerate. rewrite elem_of_zip_seq, Nat.sub_0_r.
  split; [by intros [_ H]|intros H; split; [lia|done]].
Qed.

Lemma for_each_blocks_total {X T} (P : X -> list T -> Prop) (xs : list X) body (s : list T) :
  (forall x s, x ∈ xs -> exists e, body s x = Ok (s ++ e) /\ P x e) ->
  exists es, for_each xs body s = Ok (s ++ concat es) /\ Forall2 P xs es.
Proof.
  revert s. induction xs as [|x xs IH]; intros s H; simpl.
  - exists []. split; [by rewrite app_nil_r|constructor].
  - destruct (H x s) as (e1 & E1 & P1); [apply elem_of_cons; by left|].
    rewrite E1. simpl.
    destruct (IH (s ++ e1)) as (es & E & Hes).
    { intros y t Hy. apply H. apply elem_of_cons. by right. }
    exists (e1 :: es). rewrite E. split; [simpl; by rewrite app_assoc|by constructor].
Qed.

Lemma StronglySorted_app {T} (R : T -> T -> Prop) (l1 l2 : list T) :
  StronglySorted R l1 -> StronglySorted R l2 ->
  (forall x y, x ∈ l1 -> y ∈ l2 -> R x y) -> StronglySorted R (l1 ++ l2).
Proof.
  induction l1 as [|x l1 IH]; intros H1 H2 H; simpl; [done|].
  inversion H1 as [|? ? Hs Hf]; subst. constructor.
  - apply IH; [done|done|]. intros a b Ha Hb. apply H; [apply elem_of_cons; by right|done].
  - apply Forall_app. split; [done|]. apply Forall_forall. intros y Hy.
    apply H; [apply elem_of_cons; by left|done].
Qed.

Lemma blocks_sorted {X} (R : nat -> nat -> Prop) (P : nat * X -> list anomaly -> Prop)
    (l : list X) (st : nat) (es : list (list anomaly)) :
  (forall i j, (i < j)%nat -> R i j) ->
  (forall x e, P x e -> Forall (fun a => index a = x.1) e /\
                        StronglySorted (fun a b => R (index a) (index b)) e) ->
  Forall2 P (zip (seq st (length l)) l) es ->
  StronglySorted (fun a b => R (index a) (index b)) (concat es) /\
  Forall (fun a => st <= index a < st + length l)%nat (concat es).
Proof.
  intros HR HP. revert st es. induction l as [|t l IH]; intros st es H; simpl in H.
  - inversion H. simpl. split; constructor.
  - inversion H as [|x e xs es' Hxe Hrest]; subst. simpl.
    destruct (HP _ _ Hxe) as [Hi Hs]. simpl in Hi.
    destruct (IH (S st) es' Hrest) as [Hs' Hb'].
    split.
    + apply StronglySorted_app; [done|done|]. intros a b Ha Hb.
      rewrite Forall_forall in Hi, Hb'.
      apply HR. rewrite (Hi a Ha). specialize (Hb' b Hb). simpl in Hb'. lia.
    + apply Forall_app. split.
      * eapply Forall_impl; [exact Hi|]. intros a ->. simpl. lia.
      * eapply Forall_impl; [exact Hb'|]. intros a Ha. simpl in *. lia.
Qed.

Lemma elem_of_concat_Forall2 {X T} (P : X -> list T -> Prop) xs es (a : T) :
  Forall2 P xs es ->
  a ∈ concat es <-> exists j x e, xs !! j = Some x /\ es !! j = Some e /\ P x e /\ a ∈ e.
Proof.
  intros H. rewrite list_elem_of_In, in_concat. setoid_rewrite <- list_elem_of_In. split.
  - intros (e & He & Ha). apply list_elem_of_lookup in He as [j Hj].
    destruct (Forall2_lookup_r _ _ _ _ _ H Hj) as (x & Hx & Pxe).
    exists j, x, e. auto.
  - intros (j & x & e & _ & He & _ & Ha). exists e. split; [|done].
    by eapply list_elem_of_lookup_2.
Qed.

Lemma blocks_reasons (Rs : anomaly_reason -> Prop) (Q : Trip -> anomaly_reason -> Prop)
    (P : nat * Trip -> list anomaly -> Prop) (trips : list Trip) es :
  (forall x e, P x e -> Forall (fun a => index a = x.1) e /\
     forall r, Rs r -> ((exists a, a ∈ e /\ reason a = r) <-> Q x.2 r)) ->
  Forall2 P (enumerate trips) es ->
  forall i r, Rs r ->
    ((exists a, a ∈ concat es /\ index a = i /\ reason a = r) <->
     exists t, trips !! i = Some t /\ Q t r).
Proof.
  intros HP H i r Hr. split.
  - intros (a & Ha & <- & <-). apply (elem_of_concat_Forall2 _ _ _ _ H) in Ha
      as (j & [i t] & e & Hx & He & Pxe & Ha).
    destruct (HP _ _ Pxe) as [Hi Hq]. simpl in Hi, Hq.
    rewrite Forall_forall in Hi. rewrite (Hi a Ha).
    exists t. split.
    + apply elem_of_enumerate_lookup. by eapply list_elem_of_lookup_2.
    + apply Hq; [done|]. by exists a.
  - intros (t & Ht & Hq). apply elem_of_enumerate_lookup in Ht.
    apply list_elem_of_lookup in Ht as [j Hj].
    destruct (Forall2_lookup_l _ _ _ _ _ H Hj) as (e & He & Pxe).
    destruct (HP _ _ Pxe) as [Hi Hq']. simpl in Hi, Hq'.
    destruct (proj2 (Hq' r Hr) Hq) as (a & Ha & Hra).
    exists a. split; [|split; [|done]].
    + apply (elem_of_concat_Forall2 _ _ _ _ H). exists j, (i, t), e. auto.
    + rewrite Forall_forall in Hi. by apply Hi.
Qed.

Lemma speed_pass_spec (py_round : float -> Z -> float) (self : AnomalyDetector) (trips : list Trip) :
  exists l, detect_speed_anomalies py_round self trips = Ok l /\
    StronglySorted (fun a b => index a < index b)%nat l /\
    (forall a, a ∈ l -> exists t, trips !! index a = Some t /\ anomaly_trip_id a = trip_id t) /\
    forall i r, (exists a, a ∈ l /\ index a = i /\ reason a = r) <->
      exists t, trips !! i = Some t /\
        let distance := py_get (trip_distance t) 0 in
        let duration := py_get (trip_duration_min t) 0 in
        let speed_mph := (distance / duration * 60)%float in
        ((duration <=? 0) || (distance <=? 0))%float = false /\
        ((r = speed_too_high /\ (80 <? speed_mph)%float = true) \/
         (r = speed_too_low /\ (80 <? speed_mph)%float = false /\
          ((speed_mph <? 1) && (0.5 <? distance))%float = true)).
Proof.
  pose (Q := fun (t : Trip) (r : anomaly_reason) =>
        let distance := py_get (trip_distance t) 0 in
        let duration := py_get (trip_duration_min t) 0 in
        let speed_mph := (distance / duration * 60)%float in
        ((duration <=? 0) || (distance <=? 0))%float = false /\
        ((r = speed_too_high /\ (80 <? speed_mph)%float = true) \/
         (r = speed_too_low /\ (80 <? speed_mph)%float = false /\
          ((speed_mph <? 1) && (0.5 <? distance))%float = true))).
  pose (P := fun (x : nat * Trip) (e : list anomaly) =>
     Forall (fun a => index a = x.1 /\ anomaly_trip_id a = trip_id x.2) e /\
     StronglySorted (fun a b => index a < index b)%nat e /\
     forall r, (exists a, a ∈ e /\ reason a = r) <-> Q x.2 r).
  unfold detect_speed_anomalies.
  match goal with |- exists l, for_each ?xs ?body ?s0 = Ok l /\ _ =>
    destruct (for_each_blocks_total P xs body s0) as (es & Hes & HF) end.
  { intros [i t] s _. cbv beta iota zeta.
    unfold P, Q. cbn [fst snd]. cbv zeta.
    destruct (py_get (trip_duration_min t) 0 <=? 0)%float eqn:Hdur;
      [exists []; rewrite app_nil_r; split; [done|]; split; [constructor|split; [constructor|]];
       intros r; split; [intros (a & Ha & _); by apply not_elem_of_nil in Ha|];
       intros [Hf _]; discriminate|].
    destruct (py_get (trip_distance t) 0 <=? 0)%float eqn:Hdist;
      [exists []; rewrite app_nil_r; split; [done|]; split; [constructor|split; [constructor|]];
       intros r; split; [intros (a & Ha & _); by apply not_elem_of_nil in Ha|];
       intros [Hf _]; discriminate|].
    cbn [orb]. unfold py_div. rewrite (not_leb_zero_not_zero _ Hdur). cbn [bind].
    destruct (80 <? _ / _ * 60)%float eqn:Hh; [|destruct (_ && _)%bool eqn:Hl].
    - eexists; split; [reflexivity|]. split; [singleton_block; done|].
      split; [singleton_block|]. intros r. split.
      + intros (a & Ha & <-). apply list_elem_of_singleton in Ha as ->. simpl.
        split; [done|left; done].
      + intros [_ [[-> _]|[_ [Hf _]]]]; [|congruence].
        eexists; split; [apply list_elem_of_singleton; reflexivity|done].
    - eexists; split; [reflexivity|]. split; [singleton_block; done|].
      split; [singleton_block|]. intros r. split.
      + intros (a & Ha & <-). apply list_elem_of_singleton in Ha as ->. simpl.
        split; [done|right; done].
      + intros [_ [[_ Hf]|[-> _]]]; [congruence|].
        eexists; split; [apply list_elem_of_singleton; reflexivity|done].
    - exists []; rewrite app_nil_r; split; [done|]; split; [constructor|split; [constructor|]].
      intros r; split; [intros (a & Ha & _); by apply not_elem_of_nil in Ha|].
      intros [_ [[_ Hf]|[_ [_ Hf]]]]; congruence. }
  exists (concat es). rewrite Hes. simpl. split; [done|].
  assert (HPx : forall x e, P x e -> Forall (fun a => index a = x.1) e /\
     StronglySorted (fun a b => index a < index b)%nat e).
  { intros x e (H1 & H2 & _). split; [|done]. eapply Forall_impl; [exact H1|]. by intros a [-> _]. }
  destruct (blocks_sorted lt P trips 0 es (fun i j H => H) HPx HF) as [Hs Hb].
  split; [done|]. split.
  - intros a Ha. apply (elem_of_concat_Forall2 _ _ _ _ HF) in Ha
      as (j & [i t] & e & Hx & He & (H1 & _) & Ha).
    rewrite Forall_forall in H1. destruct (H1 a Ha) as [Hi Hid]. simpl in Hi, Hid.
    exists t. rewrite Hi. split; [|done].
    apply elem_of_enumerate_lookup. by eapply list_elem_of_lookup_2.
  - intros i r. apply (blocks_reasons (fun _ => True) Q P trips es); [|done|done].
    intros x e (H1 & _ & H3). split; [eapply Forall_impl; [exact H1|]; by intros a [-> _]|].
    intros r' _. apply H3.
Qed.

Lemma mismatch_pass_spec (py_round : float -> Z -> float) (self : AnomalyDetector) (trips : list Trip) :
  exists l, detect_distance_time_mismatch py_round self trips = Ok l /\
    StronglySorted (fun a b => index a < index b)%nat l /\
    (forall a, a ∈ l -> reason a = distance_time_mismatch /\
       exists t, trips !! index a = Some t /\ anomaly_trip_id a = trip_id t) /\
    forall i, (exists a, a ∈ l /\ index a = i) <->
      exists t, trips !! i = Some t /\
        let distance := py_get (trip_distance t) 0 in
        let duration := py_get (trip_duration_min t) 0 in
        let expected_duration := (distance / 15 * 60)%float in
        ((distance <=? 0) || (duration <=? 0))%float = false /\
        ((duration <? expected_duration * 0.5) ||
         (expected_duration * 1.5 <? duration))%float = true.
Proof.
  pose (Q := fun (t : Trip) (r : anomaly_reason) =>
        let distance := py_get (trip_distance t) 0 in
        let duration := py_get (trip_duration_min t) 0 in
        let expected_duration := (distance / 15 * 60)%float in
        ((distance <=? 0) || (duration <=? 0))%float = false /\
        ((duration <? expected_duration * 0.5) ||
         (expected_duration * 1.5 <? duration))%float = true).
  pose (P := fun (x : nat * Trip) (e : list anomaly) =>
     Forall (fun a => index a = x.1 /\ reason a = distance_time_mismatch /\
                      anomaly_trip_id a = trip_id x.2) e /\
     StronglySorted (fun a b => index a < index b)%nat e /\
     ((exists a, a ∈ e) <-> Q x.2 distance_time_mismatch)).
  unfold detect_distance_time_mismatch.
  match goal with |- exists l, for_each ?xs ?body ?s0 = Ok l /\ _ =>
    destruct (for_each_blocks_total P xs body s0) as (es & Hes & HF) end.
  { intros [i t] s _. cbv beta iota zeta.
    unfold P, Q. cbn [fst snd]. cbv zeta.
    destruct ((py_get (trip_distance t) 0 <=? 0) || (py_get (trip_duration_min t) 0 <=? 0))%float
      eqn:Hskip.
    { exists []; rewrite app_nil_r; split; [done|]; split; [constructor|split; [constructor|]].
      split; [intros (a & Ha); by apply not_elem_of_nil in Ha|]. intros [Hf _]; discriminate. }
    unfold py_div. change (15 =? 0)%float with false. cbn [bind].
    destruct ((py_get (trip_duration_min t) 0 <? _ * 0.5) || (_ * 1.5 <? _))%float eqn:Hm.
    - eexists; split; [reflexivity|]. split; [singleton_block; done|].
      split; [singleton_block|]. split; [done|].
      intros _. eexists. apply list_elem_of_singleton. reflexivity.
    - exists []; rewrite app_nil_r; split; [done|]; split; [constructor|split; [constructor|]].
      split; [intros (a & Ha); by apply not_elem_of_nil in Ha|]. intros [_ Hf]; congruence. }
  exists (concat es). rewrite Hes. simpl. split; [done|].
  assert (HPx : forall x e, P x e -> Forall (fun a => index a = x.1) e /\
     StronglySorted (fun a b => index a < index b)%nat e).
  { intros x e (H1 & H2 & _). split; [|done]. eapply Forall_impl; [exact H1|]. by intros a [-> _]. }
  destruct (blocks_sorted lt P trips 0 es (fun i j H => H) HPx HF) as [Hs Hb].
  split; [done|]. split.
  - intros a Ha. apply (elem_of_concat_Forall2 _ _ _ _ HF) in Ha
      as (j & [i t] & e & Hx & He & (H1 & _) & Ha).
    rewrite Forall_forall in H1. destruct (H1 a Ha) as (Hi & Hr & Hid). simpl in Hi, Hid.
    split; [done|]. exists t. rewrite Hi. split; [|done].
    apply elem_of_enumerate_lookup. by eapply list_elem_of_lookup_2.
  - intros i.
    assert (Hall : forall a, a ∈ concat es -> reason a = distance_time_mismatch).
    { intros a Ha. apply (elem_of_concat_Forall2 _ _ _ _ HF) in Ha
        as (j & x & e & _ & _ & (H1 & _) & Ha).
      rewrite Forall_forall in H1. apply (H1 a Ha). }
    transitivity (exists a, a ∈ concat es /\ index a = i /\ reason a = distance_time_mismatch).
    { split; [intros (a & Ha & Hi); exists a; auto|intros (a & Ha & Hi & _); eauto]. }
    apply (blocks_reasons (fun r => r = distance_time_mismatch) Q P trips es); [|done|done].
    intros x e (H1 & _ & H3). split; [eapply Forall_impl; [exact H1|]; by intros a [-> _]|].
    intros r ->. rewrite <- H3. split; [intros (a & Ha & _); by exists a|].
    intros [a Ha]. exists a. split; [done|]. rewrite Forall_forall in H1. apply (H1 a Ha).
Qed.

Lemma fare_pass_spec (py_round : float -> Z -> float) (self : AnomalyDetector)
    (trips : list Trip) (l : list anomaly) :
  detect_fare_anomalies py_round self trips = Ok l ->
  StronglySorted (fun a b => index a <= index b)%nat l /\
  (forall a, a ∈ l -> (reason a = fare_outlier \/ reason a = fare_per_mile_anomaly) /\
     exists t, trips !! index a = Some t /\ anomaly_trip_id a = trip_id t) /\
  forall i, (exists a, a ∈ l /\ index a = i /\ reason a = fare_per_mile_anomaly) <->
    exists t fare distance, trips !! i = Some t /\
      fare_amount t = Some fare /\ trip_distance t = Some distance /\
      (0 <? distance)%float = true /\
      ((fare / distance <? 2) || (50 <? fare / distance))%float = true.
Proof.
  pose (Q := fun (t : Trip) (r : anomaly_reason) =>
    exists fare distance, fare_amount t = Some fare /\ trip_distance t = Some distance /\
      (0 <? distance)%float = true /\
      ((fare / distance <? 2) || (50 <? fare / distance))%float = true).
  pose (P := fun (x : nat * Trip) (e : list anomaly) =>
     Forall (fun a => index a = x.1 /\ anomaly_trip_id a = trip_id x.2 /\
        (reason a = fare_outlier \/ reason a = fare_per_mile_anomaly)) e /\
     StronglySorted (fun a b => index a <= index b)%nat e /\
     ((exists a, a ∈ e /\ reason a = fare_per_mile_anomaly) <->
      Q x.2 fare_per_mile_anomaly)).
  intros Hd. unfold detect_fare_anomalies in Hd.
  destruct trips as [|t0 ts].
  { inversion Hd; subst. split; [constructor|]. split; [intros a Ha; by apply not_elem_of_nil in Ha|].
    intros i. split; [intros (a & Ha & _); by apply not_elem_of_nil in Ha|].
    intros (t & _ & _ & Ht & _). done. }
  destruct (map_result (fun t => py_getitem (fare_amount t)) (t0 :: ts)) as [fares|e];
    cbn [bind] in Hd; [|discriminate].
  destruct (map_result (fun t => py_getitem (trip_distance t)) (t0 :: ts)) as [dists|e];
    cbn [bind] in Hd; [|discriminate].
  destruct (calculate_mean fares) as [m|e]; cbn [bind] in Hd; [|discriminate].
  destruct (calculate_std fares (Some m)) as [sd|e]; cbn [bind] in Hd; [|discriminate].
  eapply (for_each_blocks_ok P) in Hd as (es & Hl & HF); swap 1 2.
  2:{ simpl in Hl. subst l.
    assert (HPx : forall x e, P x e -> Forall (fun a => index a = x.1) e /\
       StronglySorted (fun a b => index a <= index b)%nat e).
    { intros x e (H1 & H2 & _). split; [|done]. eapply Forall_impl; [exact H1|]. by intros a [-> _]. }
    destruct (blocks_sorted le P (t0 :: ts) 0 es (fun i j H => Nat.lt_le_incl _ _ H) HPx HF)
      as [Hs Hb].
    split; [done|]. split.
    - intros a Ha. apply (elem_of_concat_Forall2 _ _ _ _ HF) in Ha
        as (j & [i t] & e & Hx & He & (H1 & _) & Ha).
      rewrite Forall_forall in H1. destruct (H1 a Ha) as (Hi & Hid & Hr). simpl in Hi, Hid.
      split; [done|]. exists t. rewrite Hi. split; [|done].
      apply elem_of_enumerate_lookup. by eapply list_elem_of_lookup_2.
    - intros i. rewrite (blocks_reasons (fun r => r = fare_per_mile_anomaly) Q P (t0 :: ts) es);
        [|intros x e (H1 & _ & H3); split; [eapply Forall_impl; [exact H1|]; by intros a [-> _]|];
          by intros r -> |done|done].
      unfold Q. split.
      + intros (t & Ht & fare & distance & H). by exists t, fare, distance.
      + intros (t & fare & distance & Ht & H). exists t. split; [done|]. by exists fare, distance. }
  intros [i t] s s' _ Hb. cbv beta iota in Hb.
  unfold P, Q. cbn [fst snd].
  destruct (fare_amount t) as [fare|] eqn:Hf; cbn [py_getitem bind] in Hb; [|discriminate].
  destruct (trip_distance t) as [dist|] eqn:Hdi; cbn [py_getitem bind] in Hb; [|discriminate].
  assert (Hz : exists eo, (if (0 <? sd)%float then
       let! z_score := py_div (fare - m)%float sd in
       if (z_threshold self <? abs z_score)%float then
         Ok (s ++ [{| index := i; anomaly_trip_id := trip_id t; reason := fare_outlier;
                      details := [(key_z_score, py_round z_score 2%Z); (key_fare, fare)] |}])
       else Ok s
     else Ok s) = Ok (s ++ eo) /\
     Forall (fun a => index a = i /\ anomaly_trip_id a = trip_id t /\ reason a = fare_outlier) eo /\
     (length eo <= 1)%nat).
  { destruct (0 <? sd)%float eqn:Hsd; [|exists []; rewrite app_nil_r; split; [done|]; split; [constructor|simpl; lia]].
    unfold py_div. rewrite (pos_not_zero _ Hsd). cbn [bind].
    destruct (z_threshold self <? abs ((fare - m) / sd))%float; [|exists []; rewrite app_nil_r; split; [done|]; split; [constructor|simpl; lia]].
    eexists; split; [reflexivity|]. split; [repeat constructor|simpl; lia]. }
  destruct Hz as (eo & Hz & Heo & Hlen). rewrite Hz in Hb. cbn [bind] in Hb.
  assert (Heo' : forall a, a ∈ eo -> reason a = fare_outlier).
  { intros a Ha. rewrite Forall_forall in Heo. apply (Heo a Ha). }
  assert (Hsort : forall ef, Forall (fun a => index a = i) ef ->
    StronglySorted (fun a b => index a <= index b)%nat ef ->
    StronglySorted (fun a b => index a <= index b)%nat (eo ++ ef)).
  { intros ef Hef Hse. apply StronglySorted_app; [|done|].
    - destruct eo as [|o [|o' eo']]; [constructor|repeat constructor|simpl in Hlen; lia].
    - intros a b Ha Hb'. rewrite Forall_forall in Heo, Hef.
      rewrite (proj1 (Heo a Ha)), (Hef b Hb'). lia. }
  assert (Hrec : Forall (fun a => index a = i /\ anomaly_trip_id a = trip_id t /\
        (reason a = fare_outlier \/ reason a = fare_per_mile_anomaly)) eo).
  { eapply Forall_impl; [exact Heo|]. intros a (H1 & H2 & H3). auto. }
  destruct (0 <? dist)%float eqn:Hdp.
  - unfold py_div in Hb. rewrite (pos_not_zero _ Hdp) in Hb. cbn [bind] in Hb.
    destruct ((fare / dist <? 2) || (50 <? fare / dist))%float eqn:Hfpm; injection Hb as <-.
    + eexists; split; [rewrite <- app_assoc; reflexivity|].
      split; [apply Forall_app; split; [done|fare_block_records]|].
      split; [apply Hsort; repeat constructor|].
      split; [intros _; by exists fare, dist|].
      intros _. eexists; split; [apply elem_of_app; right; apply list_elem_of_singleton; reflexivity|done].
    + exists eo. split; [done|]. split; [done|]. split; [rewrite <- (app_nil_r eo); apply (Hsort []); constructor|].
      split; [intros (a & Ha & Hr); rewrite (Heo' a Ha) in Hr; discriminate|].
      intros (fare' & dist' & E1 & E2 & _ & E3). cbn [snd] in E1, E2.
      injection E1 as <-. injection E2 as <-. congruence.
  - injection Hb as <-. exists eo. split; [done|]. split; [done|].
    split; [rewrite <- (app_nil_r eo); apply (Hsort []); constructor|].
    split; [intros (a & Ha & Hr); rewrite (Heo' a Ha) in Hr; discriminate|].
    intros (fare' & dist' & E1 & E2 & E3 & _). cbn [snd] in E2. injection E2 as <-. congruence.
Qed.

Lemma size_index_fold (L : list (list anomaly)) (s : gset nat) :
  (size (foldl (fun s anomaly_list => foldl (fun s a => {[ index a ]} ∪ s) s anomaly_list) s L)
   <= size s + length (concat L))%nat.
Proof.
  revert s. induction L as [|al L IH]; intros s; simpl; [lia|].
  rewrite length_app. revert s. induction al as [|a al IHa]; intros s; simpl.
  - apply IH.
  - etransitivity; [apply IHa|].
    rewrite size_union_alt, size_singleton.
    assert (size (s ∖ {[index a]}) <= size s)%nat by (apply subseteq_size; set_solver).
    lia.
Qed.

End PassProofs.

(** ** Further properties of [top_k_zones.py] *)

(** [_manual_sort_descending] returns a rearrangement of its input in
    non-increasing score order. *)
Theorem X4_sort_descending_perm_sorted {A : Type} (arr : list (A * Z)) :
  manual_sort_descending arr ≡ₚ arr /\ sorted_desc (manual_sort_descending arr).
Proof. split; [apply manual_sort_descending_perm|apply manual_sort_descending_sorted]. Qed.

(** [_quicksort(arr, low, high)] on a range inside the list sorts the
    entries [low..high] in non-increasing score order and leaves the
    entries before [low] and after [high] where they were. *)
Theorem X5_quicksort_segment {A : Type} (arr : list (A * Z)) (low high : Z) :
  (0 <= low)%Z -> (low <= high + 1)%Z -> (high + 1 <= Z.of_nat (length arr))%Z ->
  exists mid,
    quicksort arr low high
      = take (Z.to_nat low) arr ++ mid ++ drop (Z.to_nat (high + 1)) arr /\
    mid ≡ₚ seg arr (Z.to_nat low) (Z.to_nat (high + 1 - low)) /\
    sorted_desc mid.
Proof.
  intros H0 Hlh Hn. unfold quicksort.
  destruct (quicksort_fuel_spec (length arr) arr low high) as (mid & Hq & Hp & Hs);
    [lia|lia|lia|lia|].
  exists mid. split; [done|]. split; [done|]. by apply desc_chain_sorted.
Qed.

(** [_partition(arr, low, high)] with [low < high] rearranges only the
    entries [low..high] around the pivot [arr[high]]: entries scoring
    strictly more than the pivot come first, then the pivot, then the rest.
    The returned index [low + |larger entries|] is the pivot's new
    position in the returned list. *)
Theorem X6_partition_pivot {A : Type} (arr : list (A * Z)) (low high : Z) :
  (0 <= low < high)%Z -> (high < Z.of_nat (length arr))%Z ->
  exists L piv R,
    arr !! Z.to_nat high = Some piv /\
    (partition arr low high).1 !! Z.to_nat (partition arr low high).2 = Some piv /\
    partition arr low high =
      (take (Z.to_nat low) arr ++ L ++ piv :: R ++ drop (S (Z.to_nat high)) arr,
       (low + Z.of_nat (length L))%Z) /\
    L ++ piv :: R ≡ₚ seg arr (Z.to_nat low) (S (Z.to_nat high) - Z.to_nat low) /\
    Forall (fun e => score piv < score e)%Z L /\
    Forall (fun e => score e <= score piv)%Z R.
Proof.
  intros Hlh Hn.
  destruct (partition_spec arr low high) as (L & piv & R & Hpv & Hp & Hperm & HL & HR);
    [lia|lia|].
  exists L, piv, R. split; [done|]. rewrite Hp. split.
  - simpl. rewrite app_assoc.
    replace (Z.to_nat (Z.of_nat (Z.to_nat low + length L)))
      with (length (take (Z.to_nat low) arr ++ L))
      by (rewrite length_app, length_take; lia).
    apply list_lookup_middle. done.
  - split; [|done]. do 2 f_equal. lia.
Qed.

(** [_build_min_heap] rearranges the list into a min-heap: every parent
    scores at most its children, so the root scores at most every entry. *)
Theorem X7_build_min_heap {A : Type} (arr : list (A * Z)) :
  build_min_heap arr ≡ₚ arr /\ heap_from 0 (build_min_heap arr) /\
  (forall r x, build_min_heap arr !! 0%nat = Some r -> x ∈ arr -> (score r <= score x)%Z).
Proof.
  split; [apply build_min_heap_perm|]. split; [apply build_min_heap_heap|].
  intros r x Hr Hx. rewrite <- (build_min_heap_perm arr) in Hx.
  apply list_elem_of_lookup in Hx as [t Ht].
  exact (heap_root_min _ r t x (build_min_heap_heap arr) Hr Ht).
Qed.

(** [_heapify_down(arr, i)]: when the heap property holds at every index
    after [i], sifting [arr[i]] down makes it hold from [i] on, and only
    rearranges the list. *)
Theorem X8_heapify_down_restores {A : Type} (arr : list (A * Z)) (i : nat) :
  heap_from (S i) arr ->
  heapify_down arr i ≡ₚ arr /\ heap_from i (heapify_down arr i).
Proof. intros H. split; [apply heapify_down_perm|by apply heapify_down_step]. Qed.


(** ** Further properties of [anomaly_detector.py] *)

(** [detect_speed_anomalies] always returns a list with at most one record
    per trip, in trip order, each carrying its trip's [trip_id]. Trip [i]
    is flagged [speed_too_high] iff its duration and distance (missing
    read as [0]) are not [<= 0] and [distance / duration * 60 > 80]. It is
    flagged [speed_too_low] iff that speed is not [> 80], is [< 1], and
    the distance is [> 0.5]. *)
Theorem X10_speed_pass_flags (py_round : float -> Z -> float) (self : AnomalyDetector)
    (trips : list Trip) :
  exists l, detect_speed_anomalies py_round self trips = Ok l /\
    StronglySorted (fun a b => index a < index b)%nat l /\
    (forall a, a ∈ l -> exists t, trips !! index a = Some t /\ anomaly_trip_id a = trip_id t) /\
    forall i r, (exists a, a ∈ l /\ index a = i /\ reason a = r) <->
      exists t, trips !! i = Some t /\
        let distance := py_get (trip_distance t) 0 in
        let duration := py_get (trip_duration_min t) 0 in
        let speed_mph := (distance / duration * 60)%float in
        ((duration <=? 0) || (distance <=? 0))%float = false /\
        ((r = speed_too_high /\ (80 <? speed_mph)%float = true) \/
         (r = speed_too_low /\ (80 <? speed_mph)%float = false /\
          ((speed_mph <? 1) && (0.5 <? distance))%float = true)).
Proof. apply speed_pass_spec. Qed.

(** [detect_distance_time_mismatch] always returns a list with at most one
    record per trip, in trip order, all with reason
    [distance_time_mismatch] and their trip's [trip_id]. Trip [i] is
    flagged iff its distance and duration (missing read as [0]) are not
    [<= 0] and the duration is below half or above one and a half times
    [distance / 15 * 60]. *)
Theorem X11_mismatch_pass_flags (py_round : float -> Z -> float) (self : AnomalyDetector)
    (trips : list Trip) :
  exists l, detect_distance_time_mismatch py_round self trips = Ok l /\
    StronglySorted (fun a b => index a < index b)%nat l /\
    (forall a, a ∈ l -> reason a = distance_time_mismatch /\
       exists t, trips !! index a = Some t /\ anomaly_trip_id a = trip_id t) /\
    forall i, (exists a, a ∈ l /\ index a = i) <->
      exists t, trips !! i = Some t /\
        let distance := py_get (trip_distance t) 0 in
        let duration := py_get (trip_duration_min t) 0 in
        let expected_duration := (distance / 15 * 60)%float in
        ((distance <=? 0) || (duration <=? 0))%float = false /\
        ((duration <? expected_duration * 0.5) ||
         (expected_duration * 1.5 <? duration))%float = true.
Proof. apply mismatch_pass_spec. Qed.

(** When [detect_fare_anomalies] returns a list, its records are in
    trip order, and each is a [fare_outlier] or a [fare_per_mile_anomaly]
    for an existing trip with that trip's [trip_id]. Trip [i] has a
    [fare_per_mile_anomaly] record iff its distance is [> 0] and
    [fare / distance] is [< 2] or [> 50]. *)
Theorem X12_fare_pass_records (py_round : float -> Z -> float) (self : AnomalyDetector)
    (trips : list Trip) (l : list anomaly) :
  detect_fare_anomalies py_round self trips = Ok l ->
  StronglySorted (fun a b => index a <= index b)%nat l /\
  (forall a, a ∈ l -> (reason a = fare_outlier \/ reason a = fare_per_mile_anomaly) /\
     exists t, trips !! index a = Some t /\ anomaly_trip_id a = trip_id t) /\
  forall i, (exists a, a ∈ l /\ index a = i /\ reason a = fare_per_mile_anomaly) <->
    exists t fare distance, trips !! i = Some t /\
      fare_amount t = Some fare /\ trip_distance t = Some distance /\
      (0 <? distance)%float = true /\
      ((fare / distance <? 2) || (50 <? fare / distance))%float = true.
Proof. apply fare_pass_spec. Qed.

(** When [detect_all_anomalies] returns, [total_anomalous_trips] is at
    most the number of trips and at most the sum of the three pass
    counts. *)
Theorem X13_anomalous_trips_bound (py_round : float -> Z -> float) (self : AnomalyDetector)
    (trips : list Trip) (r : AllAnomalies) :
  detect_all_anomalies py_round self trips = Ok r ->
  (total_anomalous_trips r <= length trips)%nat /\
  (total_anomalous_trips r <= length (fare_anomalies r) + length (speed_anomalies r)
                              + length (mismatch_anomalies r))%nat.
Proof.
  unfold detect_all_anomalies. intros H.
  destruct (detect_fare_anomalies py_round self trips) as [fa|e] eqn:Hfa;
    cbn [bind] in H; [|discriminate].
  destruct (speed_pass_spec py_round self trips) as (sa & Hsa & _ & Hsa' & _).
  destruct (mismatch_pass_spec py_round self trips) as (ma & Hma & _ & Hma' & _).
  rewrite Hsa, Hma in H. cbn [bind] in H.
  destruct (match trips with [] => _ | _ => _ end) as [rate|e]; cbn [bind] in H; [|discriminate].
  injection H as <-. cbn [total_anomalous_trips fare_anomalies speed_anomalies mismatch_anomalies].
  destruct (fare_pass_spec py_round self trips fa Hfa) as (_ & Hfa' & _).
  split.
  - etransitivity; [|apply Nat.eq_le_incl, (size_set_seq (C:=gset nat) 0 (length trips))].
    apply subseteq_size. intros i Hi.
    apply (proj1 (elem_of_index_fold [fa; sa; ma] ∅ i)) in Hi as [Hi|(a & Ha & <-)];
      [set_solver|].
    apply elem_of_set_seq. simpl in Ha. rewrite !elem_of_app in Ha.
    assert (exists t, trips !! index a = Some t) as [t Ht].
    { destruct Ha as [Ha|[Ha|[Ha|Ha]]].
      - destruct (Hfa' a Ha) as (_ & t & Ht & _). eauto.
      - destruct (Hsa' a Ha) as (t & Ht & _). eauto.
      - destruct (Hma' a Ha) as (_ & t & Ht & _). eauto.
      - by apply not_elem_of_nil in Ha. }
    apply lookup_lt_Some in Ht. lia.
  - etransitivity; [apply (size_index_fold [fa; sa; ma] ∅)|]. rewrite size_empty. simpl.
    rewrite !length_app. simpl. lia.
Qed.

(** With no trips, [detect_all_anomalies] returns three empty lists, no
    anomalous trips and rate [0], and the summary reports [0] everywhere
    except the percentage, which is [round(0 * 100, 2)]. *)
Theorem X14_no_trips (py_round : float -> Z -> float) (self : AnomalyDetector) :
  detect_all_anomalies py_round self [] =
    Ok {| fare_anomalies := []; speed_anomalies := []; mismatch_anomalies := [];
          total_anomalous_trips := 0; anomaly_rate := 0%float |} /\
  get_anomaly_summary py_round self [] =
    Ok {| total_trips := 0; total_anomalies := 0;
          anomaly_rate_percent := py_round (0 * 100)%float 2%Z;
          summary_fare_anomalies := 0; summary_speed_anomalies := 0;
          summary_mismatch_anomalies := 0 |}.
Proof. split; reflexivity. Qed.

(** [find_anomalies(trips, threshold)] with a larger threshold [t2 >= t1]
    raises exactly when it does with [t1], and the same exception.
    Otherwise its fare anomalies are a sublist of those for [t1], its speed
    and mismatch lists are the same, and it counts no more anomalous
    trips. *)
Theorem X15_threshold_monotone (py_round : float -> Z -> float) (trips : list Trip)
    (t1 t2 : float) :
  (t1 <=? t2)%float = true ->
  res_rel (fun r1 r2 =>
      fare_anomalies r2 `sublist_of` fare_anomalies r1 /\
      speed_anomalies r2 = speed_anomalies r1 /\
      mismatch_anomalies r2 = mismatch_anomalies r1 /\
      (total_anomalous_trips r2 <= total_anomalous_trips r1)%nat)
    (find_anomalies py_round trips t1) (find_anomalies py_round trips t2).
Proof.
  intros Ht. unfold find_anomalies, detect_all_anomalies.
  pose proof (fare_threshold_mono py_round {| z_threshold := t1 |} {| z_threshold := t2 |}
    trips Ht) as H.
  change (detect_speed_anomalies py_round {| z_threshold := t2 |} trips)
    with (detect_speed_anomalies py_round {| z_threshold := t1 |} trips).
  change (detect_distance_time_mismatch py_round {| z_threshold := t2 |} trips)
    with (detect_distance_time_mismatch py_round {| z_threshold := t1 |} trips).
  destruct (detect_fare_anomalies py_round {| z_threshold := t1 |} trips) as [fa1|e1],
    (detect_fare_anomalies py_round {| z_threshold := t2 |} trips) as [fa2|e2];
    cbn [res_rel] in H; try done; cbn [bind res_rel]; try done.
  destruct (detect_speed_anomalies py_round _ trips) as [sa|e]; cbn [bind res_rel]; [|done].
  destruct (detect_distance_time_mismatch py_round _ trips) as [ma|e];
    cbn [bind res_rel]; [|done].
  assert (Hsub : foldl (fun s anomaly_list => foldl (fun s a => {[ index a ]} ∪ s) s anomaly_list)
      (∅ : gset nat) [fa2; sa; ma]
    ⊆ foldl (fun s anomaly_list => foldl (fun s a => {[ index a ]} ∪ s) s anomaly_list)
      ∅ [fa1; sa; ma]).
  { apply index_set_subseteq. simpl. rewrite !app_nil_r. intros a.
    rewrite !elem_of_app. intros [Ha|Ha]; [left; by eapply elem_of_sublist|by right]. }
  pose proof (subseteq_size _ _ Hsub) as Hsz.
  destruct trips as [|t ts]; cbn [bind res_rel]; [done|].
  unfold py_div. destruct (_ =? 0)%float; cbn [bind res_rel]; done.
Qed.

(** *** Witnesses *)

Lemma X5_quicksort_segment_witness :
  (0 <= 1)%Z /\ (1 <= 3 + 1)%Z /\ (3 + 1 <= Z.of_nat (length example_counts))%Z /\
  exists mid,
    quicksort example_counts 1 3
      = take (Z.to_nat 1) example_counts ++ mid ++ drop (Z.to_nat (3 + 1)) example_counts /\
    mid ≡ₚ seg example_counts (Z.to_nat 1) (Z.to_nat (3 + 1 - 1)) /\
    sorted_desc mid.
Proof.
  split; [lia|]. split; [lia|]. split; [simpl; lia|].
  apply (X5_quicksort_segment example_counts 1 3); [lia|lia|simpl; lia].
Defined.

Lemma X6_partition_pivot_witness :
  (0 <= 0 < 3)%Z /\ (3 < Z.of_nat (length example_counts))%Z /\
  exists L piv R,
    example_counts !! Z.to_nat 3 = Some piv /\
    (partition example_counts 0 3).1 !! Z.to_nat (partition example_counts 0 3).2 = Some piv /\
    partition example_counts 0 3 =
      (take (Z.to_nat 0) example_counts ++ L ++ piv :: R
         ++ drop (S (Z.to_nat 3)) example_counts,
       (0 + Z.of_nat (length L))%Z) /\
    L ++ piv :: R ≡ₚ seg example_counts (Z.to_nat 0) (S (Z.to_nat 3) - Z.to_nat 0) /\
    Forall (fun e => score piv < score e)%Z L /\
    Forall (fun e => score e <= score piv)%Z R.
Proof.
  split; [lia|]. split; [simpl; lia|].
  apply (X6_partition_pivot example_counts 0 3); [lia|simpl; lia].
Defined.

Lemma X8_heapify_down_restores_witness :
  heap_from 1 [(1, 5); (2, 9); (3, 1)]%Z /\
  heapify_down [(1, 5); (2, 9); (3, 1)]%Z 0 ≡ₚ [(1, 5); (2, 9); (3, 1)]%Z /\
  heap_from 0 (heapify_down [(1, 5); (2, 9); (3, 1)]%Z 0).
Proof.
  assert (H : heap_from 1 [(1, 5); (2, 9); (3, 1)]%Z).
  { intros p c x y Hp [-> | ->] _ Hy;
      rewrite lookup_ge_None_2 in Hy by (simpl; lia); discriminate. }
  split; [exact H|]. apply (X8_heapify_down_restores _ 0 H).
Defined.


Lemma X12_fare_pass_records_witness :
  exists l, detect_fare_anomalies no_round default_detector example_trips = Ok l /\
  (StronglySorted (fun a b => index a <= index b)%nat l /\
  (forall a, a ∈ l -> (reason a = fare_outlier \/ reason a = fare_per_mile_anomaly) /\
     exists t, example_trips !! index a = Some t /\ anomaly_trip_id a = trip_id t) /\
  forall i, (exists a, a ∈ l /\ index a = i /\ reason a = fare_per_mile_anomaly) <->
    exists t fare distance, example_trips !! i = Some t /\
      fare_amount t = Some fare /\ trip_distance t = Some distance /\
      (0 <? distance)%float = true /\
      ((fare / distance <? 2) || (50 <? fare / distance))%float = true).
Proof.
  eexists. split; [vm_compute; reflexivity|].
  apply (X12_fare_pass_records no_round default_detector example_trips).
  vm_compute. reflexivity.
Defined.

Lemma X13_anomalous_trips_bound_witness :
  exists r, detect_all_anomalies no_round default_detector example_trips = Ok r /\
  ((total_anomalous_trips r <= length example_trips)%nat /\
   (total_anomalous_trips r <= length (fare_anomalies r) + length (speed_anomalies r)
                               + length (mismatch_anomalies r))%nat).
Proof.
  eexists. split; [vm_compute; reflexivity|].
  apply (X13_anomalous_trips_bound no_round default_detector example_trips).
  vm_compute. reflexivity.
Defined.

Lemma X15_threshold_monotone_witness :
  (1 <=? 3)%float = true /\
  res_rel (fun r1 r2 =>
      fare_anomalies r2 `sublist_of` fare_anomalies r1 /\
      speed_anomalies r2 = speed_anomalies r1 /\
      mismatch_anomalies r2 = mismatch_anomalies r1 /\
      (total_anomalous_trips r2 <= total_anomalous_trips r1)%nat)
    (find_anomalies no_round example_trips 1) (find_anomalies no_round example_trips 3).
Proof. split; [reflexivity|]. apply (X15_threshold_monotone no_round example_trips 1 3). reflexivity. Defined.
